(** * MonyWell: the fund-movement core (deposit, transfer, withdrawal)

    A shallow embedding of the account repository
    ([src/repositories/account.repository.ts]), the request validators
    ([src/validators/transfer.validator.ts], the withdrawal [Schema]), the
    error factory and the [AccountsController] handlers, followed by the
    properties of the specification that concern them.

    Conventions of the model.
    - A JavaScript [number] that holds an amount, a balance, an owner id or
      an account number is an integer, modelled as [Z]; doubles are exact on
      integers of magnitude below 2^53, and the Joi schemas reject request
      numbers outside that range.
    - A string is a [string] of 8-bit characters.
    - The [accounts] table is the list of its rows, in storage order: the
      table has no declared uniqueness on [owner], so duplicates matter.
    - The idempotency cache ([NodeCache]) is a finite map from cache keys to
      the stored value and the time-to-live it was stored with.
    - An [await] point is a place where another request may run; each
      handler is therefore split into the part that reads ([_read]) and the
      part that runs inside [db.transaction] ([_write]). *)

From Stdlib Require Import ZArith String Ascii List Bool Lia.
From stdpp Require Import base option gmap strings list.
Import ListNotations.

#[local] Set Warnings "-register-all".
Local Open Scope string_scope.
Local Open Scope Z_scope.

(** ** Data model *)

(** [interface Account] of the [knex/types/tables] declaration. *)
Record Account : Type := mkAccount {
  owner : Z;
  account_number : Z;
  balance : Z;
  transaction_pin : string
}.

(** [interface UpdateAccountDto]. *)
Record UpdateAccountDto : Type := mkUpdateAccountDto {
  upd_balance : Z;
  upd_owner : Z
}.

(** Values that the handlers hand to [res.json]. *)
Inductive Json : Type :=
| JNum (n : Z)
| JStr (s : string)
| JBool (b : bool)
| JObj (fields : list (string * Json)).

(** What [res.status(code).json(body)] sends; [res.json(body)] sends 200. *)
Record Response : Type := mkResponse {
  status : Z;
  json : Json
}.

(** The mutable state the controller works on: the [accounts] table behind
    [db], and the [customCache] instance. *)
Record World : Type := mkWorld {
  accounts : list Account;
  customCache : gmap string (Json * Z)
}.

(** ** Numbers and strings: [Number.prototype.toString] and [parseInt] *)

Definition digit_char (d : Z) : ascii := ascii_of_nat (48 + Z.to_nat d).

Definition digit_of (c : ascii) : option Z :=
  let n := Z.of_nat (nat_of_ascii c) in
  if (48 <=? n) && (n <=? 57) then Some (n - 48) else None.

(** Decimal digits of a non-negative integer, least significant first.
    The fuel bounds the number of digits. *)
Fixpoint digits_rev (fuel : nat) (n : Z) : list ascii :=
  match fuel with
  | O => []
  | S f =>
      if n <? 10 then [digit_char n]
      else digit_char (n mod 10) :: digits_rev f (n / 10)
  end.

Definition digits (n : Z) : list ascii :=
  rev (digits_rev (S (Z.to_nat (Z.log2 n))) n).

Definition string_of_chars (l : list ascii) : string :=
  fold_right String EmptyString l.

(** [n.toString()] for an integer [n]. *)
Definition toString (n : Z) : string :=
  if n <? 0 then String "-" (string_of_chars (digits (- n)))
  else string_of_chars (digits n).

(** The digits at the head of a string, read in base ten. *)
Fixpoint parse_digits (acc : Z) (s : string) : Z :=
  match s with
  | EmptyString => acc
  | String c r =>
      match digit_of c with
      | Some d => parse_digits (acc * 10 + d) r
      | None => acc
      end
  end.

Definition starts_with_digit (s : string) : bool :=
  match s with
  | String c _ => match digit_of c with Some _ => true | None => false end
  | EmptyString => false
  end.

(** [parseInt(s)]: an optional sign and the longest prefix of decimal
    digits; [None] stands for [NaN]. Leading white space and the
    hexadecimal prefix are not modelled (no caller passes them). *)
Definition parseInt (s : string) : option Z :=
  match s with
  | String "-" r =>
      if starts_with_digit r then Some (- parse_digits 0 r) else None
  | String "+" r =>
      if starts_with_digit r then Some (parse_digits 0 r) else None
  | _ => if starts_with_digit s then Some (parse_digits 0 s) else None
  end.

(** ** The account repository *)

(** A double that is at least 0 and less than 1, which is what
    [Math.random()] returns: the number [mantissa / 2 ^ scale], with a
    mantissa of at most 53 bits and a scale of at most 1074. *)
Record Unit01 : Type := mkUnit01 {
  mantissa : Z;
  scale : Z
}.

Definition unit01_valid (r : Unit01) : Prop :=
  0 <= mantissa r < 2 ^ 53 /\
  0 <= scale r <= 1074 /\
  mantissa r < 2 ^ scale r.

(** Rounding of a non-negative integer to 53 significant bits, to the
    nearest, ties to even: the rounding of the arithmetic on doubles. *)
Definition round53 (n : Z) : Z :=
  let s := Z.log2 n - 52 in
  if s <=? 0 then n
  else
    let q := n / 2 ^ s in
    let rem := n mod 2 ^ s in
    let half := 2 ^ (s - 1) in
    (if rem <? half then q
     else if half <? rem then q + 1
     else if Z.even q then q else q + 1) * 2 ^ s.

(** [Math.floor(r * c)] for a double [r] below 1 and an integer [c] that a
    double holds exactly: the exact product is [mantissa * c / 2 ^ scale],
    the double product is its rounding to 53 bits (scaling by a power of
    two commutes with the rounding, and no product is small enough to
    lose bits to underflow), and the floor is taken last. *)
Definition floor_of_product (r : Unit01) (c : Z) : Z :=
  round53 (mantissa r * c) / 2 ^ scale r.

(** [generateAccountNumber], with the value returned by [Math.random()]
    as an argument. *)
Definition generateAccountNumber (random : Unit01) : option Z :=
  let randomNumber := floor_of_product random 90000000 + 10000000 in
  let accountNumber := "21" +:+ toString randomNumber in
  parseInt accountNumber.

(** [find]: [select().where({ account_number }).first()]. *)
Fixpoint find (db : list Account) (accountNumber : Z) : option Account :=
  match db with
  | [] => None
  | row :: rest =>
      if account_number row =? accountNumber then Some row
      else find rest accountNumber
  end.

(** [findByOwnerId]: [select().where({ owner }).first()]. *)
Fixpoint findByOwnerId (db : list Account) (ownerId : Z) : option Account :=
  match db with
  | [] => None
  | row :: rest =>
      if owner row =? ownerId then Some row
      else findByOwnerId rest ownerId
  end.

(** Number of rows that [where({ owner })] selects. *)
Fixpoint owner_rows (db : list Account) (o : Z) : Z :=
  match db with
  | [] => 0
  | row :: rest =>
      (if owner row =? o then 1 else 0) + owner_rows rest o
  end.

Definition set_balance (row : Account) (b : Z) : Account :=
  mkAccount (owner row) (account_number row) b (transaction_pin row).

(** The rows after [where({ owner }).update({ balance })]. *)
Fixpoint update_rows (db : list Account) (o b : Z) : list Account :=
  match db with
  | [] => []
  | row :: rest =>
      (if owner row =? o then set_balance row b else row)
      :: update_rows rest o b
  end.

(** ** Transactions

    A computation inside [db.transaction]: it works on the table as the
    transaction sees it and either throws or returns a value and the
    table it leaves. *)
Definition Trx (A : Type) : Type := list Account -> string + (A * list Account).

Definition trx_ret {A} (a : A) : Trx A := fun t => inr (a, t).

Definition trx_bind {A B} (m : Trx A) (k : A -> Trx B) : Trx B :=
  fun t => match m t with
           | inl e => inl e
           | inr (a, t') => k a t'
           end.

(** [throw new Error(message)]. *)
Definition trx_throw {A} (message : string) : Trx A := fun _ => inl message.

Notation "x <- m ;;; k" := (trx_bind m (fun x => k))
  (at level 100, m at next level, right associativity).

(** [update(trx, accountDto)]: the number of affected rows. *)
Definition update (accountDto : UpdateAccountDto) : Trx Z :=
  fun t =>
    let o := upd_owner accountDto in
    let b := upd_balance accountDto in
    inr (owner_rows t o, update_rows t o b).

(** [db.transaction(callback)]: commits what the callback leaves when it
    returns, and rolls back to the table as it was when it throws. *)
Definition transaction {A} (db : list Account) (callback : Trx A)
  : (string + A) * list Account :=
  match callback db with
  | inl e => (inl e, db)
  | inr (a, t) => (inr a, t)
  end.

(** ** The error factory *)

(** What reaches [ErrorFactory.getError]: a message given as a string, or
    an [Error] object that was thrown, with its [message]. *)
Inductive ErrorValue : Type :=
| ErrString (s : string)
| ErrObject (message : string).

(** JavaScript truthiness of a string. *)
Definition truthy (s : string) : bool :=
  match s with
  | EmptyString => false
  | String _ _ => true
  end.

(** [ErrorFactory.getError]. A string has no [message] property, so it is
    the [details] itself; an [Error] whose message is empty is kept as the
    object, which serialises to the empty object. *)
Definition getError (err : ErrorValue) : Json :=
  let success := false in
  let details :=
    match err with
    | ErrString s => JStr s
    | ErrObject message => if truthy message then JStr message else JObj []
    end in
  JObj [("success", JBool success); ("details", details)].

(** ** Request validation (Joi schemas)

    A request body has the type of its DTO, with every property possibly
    absent. Joi checks the keys in the order of the schema and reports the
    first failure. *)

Definition dquote : string := String "034"%char EmptyString.

Definition label (key : string) : string := dquote +:+ key +:+ dquote.

Definition MAX_SAFE_INTEGER : Z := 9007199254740991.

(** [Joi.number().required()]. *)
Definition joi_number_required (key : string) (v : option Z) : string + Z :=
  match v with
  | None => inl (label key +:+ " is required")
  | Some n =>
      if (n <? - MAX_SAFE_INTEGER) || (MAX_SAFE_INTEGER <? n)
      then inl (label key +:+ " must be a safe number")
      else inr n
  end.

(** [Joi.string().required()], with an optional [min(limit)]. *)
Definition joi_string_required (key : string) (limit : nat) (v : option string)
  : string + string :=
  match v with
  | None => inl (label key +:+ " is required")
  | Some s =>
      if negb (truthy s) then inl (label key +:+ " is not allowed to be empty")
      else if (String.length s <? limit)%nat
      then inl (label key +:+ " length must be at least "
                +:+ toString (Z.of_nat limit) +:+ " characters long")
      else inr s
  end.

(** The body of a transfer request as it arrives. *)
Record TransferBody : Type := mkTransferBody {
  tb_source : option Z;
  tb_amount : option Z;
  tb_destination : option Z;
  tb_transaction_pin : option string
}.

(** [CreateTransferDto]: the validated value. *)
Record CreateTransferDto : Type := mkCreateTransferDto {
  t_source : Z;
  t_amount : Z;
  t_destination : Z;
  t_transaction_pin : string
}.

(** [validateTransfer]: [transferSchema.validate(transfer)]; the left case
    carries [error.details[0].message]. *)
Definition validateTransfer (transfer : TransferBody) : string + CreateTransferDto :=
  match joi_number_required "source" (tb_source transfer) with
  | inl e => inl e
  | inr source =>
  match joi_number_required "amount" (tb_amount transfer) with
  | inl e => inl e
  | inr amount =>
  match joi_number_required "destination" (tb_destination transfer) with
  | inl e => inl e
  | inr destination =>
  match joi_string_required "transaction_pin" 4 (tb_transaction_pin transfer) with
  | inl e => inl e
  | inr pin => inr (mkCreateTransferDto source amount destination pin)
  end end end end.

(** The body of a withdrawal request as it arrives. *)
Record WithdrawalBody : Type := mkWithdrawalBody {
  wb_source : option Z;
  wb_amount : option Z;
  wb_destination : option Z;
  wb_transaction_pin : option string;
  wb_destinationBankName : option string
}.

(** [WithdrawalDto]: the validated value. *)
Record WithdrawalDto : Type := mkWithdrawalDto {
  w_source : Z;
  w_amount : Z;
  w_destination : Z;
  w_transaction_pin : string;
  w_destinationBankName : string
}.

(** [validateWithdrawal]: [Schema.validate(withdrawal)]. *)
Definition validateWithdrawal (withdrawal : WithdrawalBody) : string + WithdrawalDto :=
  match joi_number_required "source" (wb_source withdrawal) with
  | inl e => inl e
  | inr source =>
  match joi_number_required "amount" (wb_amount withdrawal) with
  | inl e => inl e
  | inr amount =>
  match joi_number_required "destination" (wb_destination withdrawal) with
  | inl e => inl e
  | inr destination =>
  match joi_string_required "transaction_pin" 4 (wb_transaction_pin withdrawal) with
  | inl e => inl e
  | inr pin =>
  match joi_string_required "destinationBankName" 0 (wb_destinationBankName withdrawal) with
  | inl e => inl e
  | inr bank => inr (mkWithdrawalDto source amount destination pin bank)
  end end end end end.

(** [DepositFundsDto]. *)
Record DepositFundsDto : Type := mkDepositFundsDto {
  d_amount : Z
}.

(** ** Requests *)

(** The parts of an express [Request] that the handlers read: the [userId]
    set by the authentication middleware, the [idempotency-key] header and
    the body. *)
Record Request (Body : Type) : Type := mkRequest {
  userId : Z;
  idempotency_key : option string;
  body : Body
}.

Arguments mkRequest {Body} _ _ _.
Arguments userId {Body} _.
Arguments idempotency_key {Body} _.
Arguments body {Body} _.

(** The same request sent by another authenticated caller. *)
Definition as_user {Body} (u : Z) (req : Request Body) : Request Body :=
  mkRequest u (idempotency_key req) (body req).

(** ** The accounts controller *)

(** Time to live, in seconds, of a cached response. *)
Definition CACHE_TTL : Z := 21600.

(** [handleTransactionError]: status 400 with the error object made from
    the [Error] that the transaction threw. *)
Definition handleTransactionError (error : string) : Response :=
  mkResponse 400 (getError (ErrObject error)).

(** [cacheResponseIfKeyExists]: the cache after the call. The header is
    absent ([None]) or a string; only a non-empty string is truthy. *)
Definition cacheResponseIfKeyExists {Body} (customCache : gmap string (Json * Z))
    (req : Request Body) (idempotencyKey : option string) (response : Json)
  : gmap string (Json * Z) :=
  let userId := userId req in
  match idempotencyKey with
  | Some key =>
      if truthy key then
        let cacheKey := "Bearer " +:+ toString userId +:+ "-" +:+ key in
        <[cacheKey := (response, CACHE_TTL)]> customCache
      else customCache
  | None => customCache
  end.

Section Controller.

(** The hashing collaborator: [argon2_verify a b] is the boolean with which
    the call [argon2.verify(a, b)] resolves, with the arguments in the
    order of the call. A call that rejects is not part of the model: the
    statements about the pin check take the result of the call as a
    hypothesis. *)
Variable argon2_verify : string -> string -> bool.

(** *** deposit *)

(** The checks of [deposit] up to the lookup of the account. *)
Definition deposit_read (w : World) (req : Request DepositFundsDto)
  : Response + Account :=
  let userId := userId req in
  let amount := d_amount (body req) in
  if amount <=? 0
  then inl (mkResponse 400 (getError (ErrString "Invalid amount")))
  else
    match findByOwnerId (accounts w) userId with
    | None => inl (mkResponse 404 (getError (ErrString "Bank account doesn't exist")))
    | Some account => inr account
    end.

(** The callback that [deposit] passes to [db.transaction]. *)
Definition deposit_trx (updateDto : UpdateAccountDto) : Trx unit :=
  depositResult <- update updateDto ;;;
  if negb (depositResult =? 1) then trx_throw "Deposit failed"
  else trx_ret tt.

(** The rest of [deposit], from the account that was read. *)
Definition deposit_write (w : World) (req : Request DepositFundsDto)
    (account : Account) : Response * World :=
  let userId := userId req in
  let amount := d_amount (body req) in
  let idempotencyKey := idempotency_key req in
  let updatedBalance := balance account + amount in
  let updateDto := mkUpdateAccountDto updatedBalance userId in
  match transaction (accounts w) (deposit_trx updateDto) with
  | (inl error, t) =>
      (handleTransactionError error, mkWorld t (customCache w))
  | (inr _, t) =>
      let response :=
        JObj [("success", JBool true);
              ("details", JObj [("balance", JNum (upd_balance updateDto));
                                ("owner", JNum (upd_owner updateDto))])] in
      (mkResponse 200 response,
       mkWorld t (cacheResponseIfKeyExists (customCache w) req idempotencyKey response))
  end.

Definition deposit (w : World) (req : Request DepositFundsDto) : Response * World :=
  match deposit_read w req with
  | inl res => (res, w)
  | inr account => deposit_write w req account
  end.

(** *** transfer *)

(** The checks of [transfer], in the order of the handler. *)
Definition transfer_read (w : World) (req : Request TransferBody)
  : Response + (CreateTransferDto * Account * Account) :=
  let req_user_id := userId req in
  match validateTransfer (body req) with
  | inl message => inl (mkResponse 400 (getError (ErrString message)))
  | inr value =>
      let source := t_source value in
      let amount := t_amount value in
      let transaction_pin' := t_transaction_pin value in
      let destination := t_destination value in
      if source =? destination
      then inl (mkResponse 400 (getError (ErrString
                  "Sender and recipient account cannot be the same")))
      else
        let senderAccount := find (accounts w) source in
        let recipientAccount := find (accounts w) destination in
        if amount <=? 0
        then inl (mkResponse 400 (getError (ErrString "Invalid amount")))
        else
          match senderAccount, recipientAccount with
          | Some senderAccount, Some recipientAccount =>
              if negb (owner senderAccount =? req_user_id)
              then inl (mkResponse 400 (getError (ErrString
                          "You are not allowed to transfer from this account")))
              else if balance senderAccount <? amount
              then inl (mkResponse 400 (getError (ErrString
                          "Insufficient funds in the sender account.")))
              else
                let isValid :=
                  argon2_verify transaction_pin' (transaction_pin senderAccount) in
                if negb isValid
                then inl (mkResponse 400 (getError (ErrString "Invalid transaction pin")))
                else inr (value, senderAccount, recipientAccount)
          | _, _ =>
              inl (mkResponse 404 (getError (ErrString
                     "One or both bank accounts do not exist.")))
          end
  end.

(** The callback that [transfer] passes to [db.transaction]. *)
Definition transfer_trx (senderAccount recipientAccount : Account) (amount : Z)
  : Trx unit :=
  let senderUpdatedBalance := balance senderAccount - amount in
  let recipientUpdatedBalance := balance recipientAccount + amount in
  let senderUpdateDto :=
    mkUpdateAccountDto senderUpdatedBalance (owner senderAccount) in
  let recipientUpdateDto :=
    mkUpdateAccountDto recipientUpdatedBalance (owner recipientAccount) in
  senderUpdateResult <- update senderUpdateDto ;;;
  recipientUpdateResult <- update recipientUpdateDto ;;;
  if negb (senderUpdateResult =? 1) || negb (recipientUpdateResult =? 1)
  then trx_throw "Deposit failed"
  else trx_ret tt.

(** The rest of [transfer], from the validated value and the two accounts
    that were read. *)
Definition transfer_write (w : World) (req : Request TransferBody)
    (value : CreateTransferDto) (senderAccount recipientAccount : Account)
  : Response * World :=
  let idempotencyKey := idempotency_key req in
  let source := t_source value in
  let amount := t_amount value in
  let destination := t_destination value in
  match transaction (accounts w)
          (transfer_trx senderAccount recipientAccount amount) with
  | (inr _, t) =>
      let response :=
        JObj [("success", JBool true); ("destination", JNum destination);
              ("source", JNum source); ("amount", JNum amount)] in
      (mkResponse 200 response,
       mkWorld t (cacheResponseIfKeyExists (customCache w) req idempotencyKey response))
  | (inl error, t) =>
      (handleTransactionError error, mkWorld t (customCache w))
  end.

Definition transfer (w : World) (req : Request TransferBody) : Response * World :=
  match transfer_read w req with
  | inl res => (res, w)
  | inr (value, senderAccount, recipientAccount) =>
      transfer_write w req value senderAccount recipientAccount
  end.

(** *** withdraw *)

(** The checks of [withdraw], in the order of the handler. *)
Definition withdraw_read (w : World) (req : Request WithdrawalBody)
  : Response + (WithdrawalDto * Account) :=
  match validateWithdrawal (body req) with
  | inl message => inl (mkResponse 400 (getError (ErrString message)))
  | inr value =>
      let source := w_source value in
      let amount := w_amount value in
      let pin := w_transaction_pin value in
      match find (accounts w) source with
      | None =>
          inl (mkResponse 404 (getError (ErrString "Source Bank account do not exist.")))
      | Some sourceAccount =>
          if balance sourceAccount <? amount
          then inl (mkResponse 400 (getError (ErrString
                      "Insufficient funds in the sender account.")))
          else
            let isValid := argon2_verify pin (transaction_pin sourceAccount) in
            if negb isValid
            then inl (mkResponse 400 (getError (ErrString "Invalid transaction pin")))
            else inr (value, sourceAccount)
      end
  end.

(** The callback that [withdraw] passes to [db.transaction]. *)
Definition withdraw_trx (sourceAccount : Account) (amount : Z) : Trx unit :=
  let updatedBalance := balance sourceAccount - amount in
  let updateDto := mkUpdateAccountDto updatedBalance (owner sourceAccount) in
  withdrawalResult <- update updateDto ;;;
  if negb (withdrawalResult =? 1) then trx_throw "Withdrawal failed"
  else trx_ret tt.

(** The rest of [withdraw], from the validated value and the account that
    was read. *)
Definition withdraw_write (w : World) (req : Request WithdrawalBody)
    (value : WithdrawalDto) (sourceAccount : Account) : Response * World :=
  let idempotencyKey := idempotency_key req in
  let source := w_source value in
  let amount := w_amount value in
  let destination := w_destination value in
  let destinationBankName := w_destinationBankName value in
  match transaction (accounts w) (withdraw_trx sourceAccount amount) with
  | (inr _, t) =>
      let response :=
        JObj [("success", JBool true); ("destination", JNum destination);
              ("source", JNum source); ("amount", JNum amount);
              ("destinationBankName", JStr destinationBankName)] in
      (mkResponse 200 response,
       mkWorld t (cacheResponseIfKeyExists (customCache w) req idempotencyKey response))
  | (inl error, t) =>
      (handleTransactionError error, mkWorld t (customCache w))
  end.

Definition withdraw (w : World) (req : Request WithdrawalBody) : Response * World :=
  match withdraw_read w req with
  | inl res => (res, w)
  | inr (value, sourceAccount) => withdraw_write w req value sourceAccount
  end.

End Controller.

(** ** Sequences of operations *)

(** A fund-movement request, tagged by its route. *)
Inductive Operation : Type :=
| OpDeposit (req : Request DepositFundsDto)
| OpTransfer (req : Request TransferBody)
| OpWithdraw (req : Request WithdrawalBody).

(** An operation committed when its handler answered with [res.json], that
    is with status 200. *)
Definition committed (res : Response) : bool := status res =? 200.

(** The change of balance that a request asks for on a given account: a
    deposit credits the account of the caller, a withdrawal debits its
    source, a transfer debits its source and credits its destination. *)
Definition requested_delta (op : Operation) (acct : Account) : Z :=
  match op with
  | OpDeposit req =>
      if owner acct =? userId req then d_amount (body req) else 0
  | OpTransfer req =>
      match validateTransfer (body req) with
      | inl _ => 0
      | inr value =>
          (if account_number acct =? t_source value then - t_amount value else 0)
          + (if account_number acct =? t_destination value then t_amount value else 0)
      end
  | OpWithdraw req =>
      match validateWithdrawal (body req) with
      | inl _ => 0
      | inr value =>
          if account_number acct =? w_source value then - w_amount value else 0
      end
  end.

Section Runs.

Variable argon2_verify : string -> string -> bool.

Definition execute (w : World) (op : Operation) : Response * World :=
  match op with
  | OpDeposit req => deposit w req
  | OpTransfer req => transfer argon2_verify w req
  | OpWithdraw req => withdraw argon2_verify w req
  end.

(** The delta that an operation applies: the requested one when the
    operation commits, none otherwise. *)
Definition applied_delta (w : World) (op : Operation) (acct : Account) : Z :=
  if committed (fst (execute w op)) then requested_delta op acct else 0.

(** Operations handled one after the other. *)
Fixpoint run (w : World) (ops : list Operation) : World :=
  match ops with
  | [] => w
  | op :: rest => run (snd (execute w op)) rest
  end.

(** The sum of the deltas applied along [run]. *)
Fixpoint applied_deltas (w : World) (ops : list Operation) (acct : Account) : Z :=
  match ops with
  | [] => 0
  | op :: rest =>
      applied_delta w op acct + applied_deltas (snd (execute w op)) rest acct
  end.

(** *** Precedence of the transfer preconditions *)

Inductive TransferCheck : Type :=
| SchemaValidation
| SameAccount
| AccountsExist
| AmountPositive
| Ownership
| SufficientFunds
| PinValidity.

(** The failure that a precondition of a transfer produces when it is
    violated, taken on its own. A precondition about the source account
    says nothing when that account does not exist, and no precondition but
    the schema says anything about a body that the schema rejects. *)
Definition violation (w : World) (req : Request TransferBody) (c : TransferCheck)
  : option Response :=
  match validateTransfer (body req) with
  | inl message =>
      match c with
      | SchemaValidation => Some (mkResponse 400 (getError (ErrString message)))
      | _ => None
      end
  | inr value =>
      let sender := find (accounts w) (t_source value) in
      let recipient := find (accounts w) (t_destination value) in
      match c with
      | SchemaValidation => None
      | SameAccount =>
          if t_source value =? t_destination value
          then Some (mkResponse 400 (getError (ErrString
                       "Sender and recipient account cannot be the same")))
          else None
      | AccountsExist =>
          match sender, recipient with
          | Some _, Some _ => None
          | _, _ => Some (mkResponse 404 (getError (ErrString
                            "One or both bank accounts do not exist.")))
          end
      | AmountPositive =>
          if 0 <? t_amount value then None
          else Some (mkResponse 400 (getError (ErrString "Invalid amount")))
      | Ownership =>
          match sender with
          | Some s =>
              if owner s =? userId req then None
              else Some (mkResponse 400 (getError (ErrString
                           "You are not allowed to transfer from this account")))
          | None => None
          end
      | SufficientFunds =>
          match sender with
          | Some s =>
              if t_amount value <=? balance s then None
              else Some (mkResponse 400 (getError (ErrString
                           "Insufficient funds in the sender account.")))
          | None => None
          end
      | PinValidity =>
          match sender with
          | Some s =>
              if argon2_verify (t_transaction_pin value) (transaction_pin s) then None
              else Some (mkResponse 400 (getError (ErrString "Invalid transaction pin")))
          | None => None
          end
      end
  end.

(** The failure of the earliest violated precondition of a list. *)
Fixpoint first_violation (w : World) (req : Request TransferBody)
    (order : list TransferCheck) : option Response :=
  match order with
  | [] => None
  | c :: rest =>
      match violation w req c with
      | Some res => Some res
      | None => first_violation w req rest
      end
  end.

End Runs.

(** The order of the checks as the specification lists them. *)
Definition specified_order : list TransferCheck :=
  [SchemaValidation; SameAccount; AccountsExist; AmountPositive;
   Ownership; SufficientFunds; PinValidity].

(** The order of the checks in the handler. *)
Definition handler_order : list TransferCheck :=
  [SchemaValidation; SameAccount; AmountPositive; AccountsExist;
   Ownership; SufficientFunds; PinValidity].

(** *** Two deposits whose steps interleave

    Both requests read the account before either runs its transaction;
    the transactions then run one after the other. *)
Definition interleaved_deposits (w : World) (req1 req2 : Request DepositFundsDto)
  : option (Response * Response * World) :=
  match deposit_read w req1, deposit_read w req2 with
  | inr account1, inr account2 =>
      let '(res1, w1) := deposit_write w req1 account1 in
      let '(res2, w2) := deposit_write w1 req2 account2 in
      Some (res1, res2, w2)
  | _, _ => None
  end.

(** The balance of the account with a given number, if there is one. *)
Definition balance_of (w : World) (accountNumber : Z) : option Z :=
  balance <$> find (accounts w) accountNumber.

(** ** A small bank, for the examples *)

(** A stand-in for the hashing collaborator: the stored value of a pin is
    the pin between brackets. *)
Definition toy_verify (plain stored : string) : bool :=
  String.eqb stored ("[" +:+ plain +:+ "]").

Definition alice : Account := mkAccount 1 2110000001 100 "[1234]".
Definition bob : Account := mkAccount 2 2110000002 50 "[4321]".
Definition carol : Account := mkAccount 3 2110000003 0 "[0000]".

Definition bank : World := mkWorld [alice; bob; carol] ∅.

(** *** What an operation may do to an account

    [moved acct acct' delta]: [acct'] is [acct] with its balance moved by
    [delta] and nothing else changed, and a balance that was not negative
    is not negative afterwards. *)
Definition moved (acct acct' : Account) (delta : Z) : Prop :=
  owner acct' = owner acct /\
  account_number acct' = account_number acct /\
  transaction_pin acct' = transaction_pin acct /\
  balance acct' = balance acct + delta /\
  (0 <= balance acct -> 0 <= balance acct').

(** ** Vocabulary of the further properties *)

(** The key under which [cacheResponseIfKeyExists] stores a response. *)
Definition cacheKey (userId : Z) (idempotencyKey : string) : string :=
  "Bearer " +:+ toString userId +:+ "-" +:+ idempotencyKey.

(** The caller and the idempotency header of an operation. *)
Definition caller_of (op : Operation) : Z :=
  match op with
  | OpDeposit req => userId req
  | OpTransfer req => userId req
  | OpWithdraw req => userId req
  end.

Definition key_of (op : Operation) : option string :=
  match op with
  | OpDeposit req => idempotency_key req
  | OpTransfer req => idempotency_key req
  | OpWithdraw req => idempotency_key req
  end.

(** The sum of the balances of all the rows of the table. *)
Fixpoint total_balance (db : list Account) : Z :=
  match db with
  | [] => 0
  | row :: rest => balance row + total_balance rest
  end.

(** The columns of a row that no handler writes. *)
Definition identity_of (row : Account) : Z * Z * string :=
  (owner row, account_number row, transaction_pin row).

(** The money that a request asks to bring into the table: the amount of a
    deposit, nothing for a transfer, the opposite of the amount of a
    withdrawal. *)
Definition net_flow (op : Operation) : Z :=
  match op with
  | OpDeposit req => d_amount (body req)
  | OpTransfer _ => 0
  | OpWithdraw req =>
      match validateWithdrawal (body req) with
      | inl _ => 0
      | inr value => - w_amount value
      end
  end.

(** The sum of the net flows of the operations that commit along [run]. *)
Fixpoint net_flows (argon2_verify : string -> string -> bool)
    (w : World) (ops : list Operation) : Z :=
  match ops with
  | [] => 0
  | op :: rest =>
      (if committed (fst (execute argon2_verify w op)) then net_flow op else 0)
      + net_flows argon2_verify (snd (execute argon2_verify w op)) rest
  end.

(** A number that [Joi.number()] accepts. *)
Definition safe_number (n : Z) : Prop :=
  - MAX_SAFE_INTEGER <= n <= MAX_SAFE_INTEGER.

(** Two transfers whose steps interleave: both read before either runs its
    transaction. *)
Definition interleaved_transfers (argon2_verify : string -> string -> bool)
    (w : World) (req1 req2 : Request TransferBody)
  : option (Response * Response * World) :=
  match transfer_read argon2_verify w req1, transfer_read argon2_verify w req2 with
  | inr (value1, s1, r1), inr (value2, s2, r2) =>
      let '(res1, w1) := transfer_write w req1 value1 s1 r1 in
      let '(res2, w2) := transfer_write w1 req2 value2 s2 r2 in
      Some (res1, res2, w2)
  | _, _ => None
  end.

(** ** Users: [UserRepository.getUser] and [UserController.getUser] *)

(** [interface User]; a [Date] is its time value. *)
Record User : Type := mkUser {
  user_id : Z;
  first_name : string;
  last_name : string;
  email : string;
  phone_number : string;
  created_at : Z;
  updated_at : Z
}.

(** The columns that [getUser] selects. *)
Record UserDetails : Type := mkUserDetails {
  ud_id : Z;
  ud_first_name : string;
  ud_last_name : string;
  ud_email : string;
  ud_phone_number : string
}.

Module UserRepository.

(** [getUser]: [select("id", "first_name", "last_name", "email",
    "phone_number").where({ id: userId }).first()]. *)
Fixpoint getUser (users : list User) (userId : Z) : option UserDetails :=
  match users with
  | [] => None
  | u :: rest =>
      if user_id u =? userId
      then Some (mkUserDetails (user_id u) (first_name u) (last_name u)
                   (email u) (phone_number u))
      else getUser rest userId
  end.

End UserRepository.

(** The object that [res.json] sends for a selected user, with the
    properties in the order of the selection, and for an account row, with
    the properties in the order of [interface Account]. *)
Definition json_of_user (u : UserDetails) : Json :=
  JObj [("id", JNum (ud_id u)); ("first_name", JStr (ud_first_name u));
        ("last_name", JStr (ud_last_name u)); ("email", JStr (ud_email u));
        ("phone_number", JStr (ud_phone_number u))].

Definition json_of_account (a : Account) : Json :=
  JObj [("owner", JNum (owner a)); ("account_number", JNum (account_number a));
        ("balance", JNum (balance a)); ("transaction_pin", JStr (transaction_pin a))].

(** An object literal as [JSON.stringify] prints it: a property whose
    value is [undefined] is left out. *)
Fixpoint json_object (properties : list (string * option Json)) : list (string * Json) :=
  match properties with
  | [] => []
  | (key, Some v) :: rest => (key, v) :: json_object rest
  | (key, None) :: rest => json_object rest
  end.

(** The value of a property of an object. *)
Fixpoint assoc (key : string) (fields : list (string * Json)) : option Json :=
  match fields with
  | [] => None
  | (k, v) :: rest => if String.eqb k key then Some v else assoc key rest
  end.

Definition json_get (key : string) (j : Json) : option Json :=
  match j with
  | JObj fields => assoc key fields
  | _ => None
  end.

Module UserController.

(** [getUser]: the user of the caller and the account found by owner,
    sent with [res.json]. *)
Definition getUser (users : list User) (db : list Account) (userId : Z) : Response :=
  let user := UserRepository.getUser users userId in
  let account := findByOwnerId db userId in
  mkResponse 200
    (JObj (json_object [("user", json_of_user <$> user);
                        ("account", json_of_account <$> account)])).

End UserController.

(** ** A stand-in with the argument order of the hashing package

    The package documents [verify(digest, plain)]. In this stand-in the
    digest of a text is the text after the mark [$toy$], so that the call
    [argon2.verify(pin, stored)] of the handlers answers true exactly when
    the pin sent is a digest of the stored text. *)
Definition digest_verify (digest plain : string) : bool :=
  String.eqb digest ("$toy$" +:+ plain).

(** ** The domain on which the arithmetic of the handlers is exact

    The handlers add and subtract doubles. On integers of magnitude at most
    [MAX_SAFE_INTEGER] whose sum or difference is again such an integer,
    the result on doubles is the integer result. *)
Definition safe_table (db : list Account) : Prop :=
  Forall (fun row => safe_number (balance row)) db.

(** The amount that an operation carries, once validated. *)
Definition amount_of (op : Operation) : Z :=
  match op with
  | OpDeposit req => d_amount (body req)
  | OpTransfer req =>
      match validateTransfer (body req) with
      | inl _ => 0
      | inr value => t_amount value
      end
  | OpWithdraw req =>
      match validateWithdrawal (body req) with
      | inl _ => 0
      | inr value => w_amount value
      end
  end.

(** Along [run], every amount and every balance of every table met, the
    last one included, is a safe integer. *)
Fixpoint exact_run (argon2_verify : string -> string -> bool)
    (w : World) (ops : list Operation) : Prop :=
  safe_table (accounts w) /\
  match ops with
  | [] => True
  | op :: rest =>
      safe_number (amount_of op) /\
      exact_run argon2_verify (snd (execute argon2_verify w op)) rest
  end.

(** The same domain as a test. *)
Definition safe_numberb (n : Z) : bool :=
  (- MAX_SAFE_INTEGER <=? n) && (n <=? MAX_SAFE_INTEGER).

Definition safe_tableb (db : list Account) : bool :=
  forallb (fun row => safe_numberb (balance row)) db.

Fixpoint exact_runb (argon2_verify : string -> string -> bool)
    (w : World) (ops : list Operation) : bool :=
  safe_tableb (accounts w) &&
  match ops with
  | [] => true
  | op :: rest =>
      safe_numberb (amount_of op) &&
      exact_runb argon2_verify (snd (execute argon2_verify w op)) rest
  end.

(** * Properties *)

(** ** Decimal printing and parsing *)

Lemma digit_of_digit_char (d : Z) :
  0 <= d < 10 -> digit_of (digit_char d) = Some d.
Proof.
  intros Hd.
  assert (Hcases : d = 0 \/ d = 1 \/ d = 2 \/ d = 3 \/ d = 4 \/
                   d = 5 \/ d = 6 \/ d = 7 \/ d = 8 \/ d = 9) by lia.
  repeat (destruct Hcases as [-> | Hcases]; [reflexivity |]).
  subst d; reflexivity.
Qed.

Lemma append_String (c : ascii) (s1 s2 : string) :
  String c s1 +:+ s2 = String c (s1 +:+ s2).
Proof. reflexivity. Qed.

Lemma append_empty_l (s : string) : "" +:+ s = s.
Proof. reflexivity. Qed.

Lemma append_empty_r (s : string) : s +:+ "" = s.
Proof.
  induction s as [| c s IH]; [reflexivity |].
  now rewrite append_String, IH.
Qed.

Lemma string_of_chars_snoc (l : list ascii) (c : ascii) (s : string) :
  string_of_chars (l ++ [c]) +:+ s = string_of_chars l +:+ String c s.
Proof.
  induction l as [| a l IH]; [reflexivity |].
  change (String a (string_of_chars (l ++ [c]) +:+ s)
          = String a (string_of_chars l +:+ String c s)).
  now rewrite IH.
Qed.

Lemma length_string_of_chars (l : list ascii) :
  String.length (string_of_chars l) = length l.
Proof.
  induction l as [| a l IH]; [reflexivity |].
  change (S (String.length (string_of_chars l)) = S (length l)).
  now rewrite IH.
Qed.

(** Reading back the printed digits of [n] multiplies the accumulator by
    the matching power of ten and adds [n]. *)
Lemma parse_digits_rev (fuel : nat) :
  forall (n acc : Z) (s : string),
    0 <= n < 2 ^ Z.of_nat fuel ->
    parse_digits acc (string_of_chars (rev (digits_rev fuel n)) +:+ s)
    = parse_digits (acc * 10 ^ Z.of_nat (length (digits_rev fuel n)) + n) s.
Proof.
  induction fuel as [| f IH]; intros n acc s Hn.
  - simpl in Hn. assert (n = 0) as -> by lia. simpl. f_equal; lia.
  - cbn [digits_rev]. destruct (n <? 10) eqn:Hlt.
    + apply Z.ltb_lt in Hlt.
      cbn [rev app string_of_chars fold_right length].
      rewrite append_String, append_empty_l. cbn [parse_digits].
      rewrite digit_of_digit_char by lia. f_equal; lia.
    + apply Z.ltb_ge in Hlt.
      cbn [rev length]. rewrite string_of_chars_snoc.
      assert (Hpow : 2 ^ Z.of_nat (S f) = 2 * 2 ^ Z.of_nat f).
      { rewrite Nat2Z.inj_succ, Z.pow_succ_r by lia. reflexivity. }
      assert (Hdiv : 0 <= n / 10 < 2 ^ Z.of_nat f).
      { split; [apply Z.div_pos; lia |].
        apply Z.div_lt_upper_bound; lia. }
      rewrite IH by exact Hdiv.
      cbn [parse_digits].
      rewrite digit_of_digit_char by (apply Z.mod_pos_bound; lia).
      f_equal.
      rewrite Nat2Z.inj_succ, Z.pow_succ_r by lia.
      pose proof (Z.div_mod n 10 ltac:(lia)). lia.
Qed.

(** The number of digits printed brackets the number between two powers
    of ten. *)
Lemma digits_rev_bounds (fuel : nat) :
  forall n : Z,
    1 <= n < 2 ^ Z.of_nat fuel ->
    10 ^ (Z.of_nat (length (digits_rev fuel n)) - 1) <= n
    < 10 ^ Z.of_nat (length (digits_rev fuel n)).
Proof.
  induction fuel as [| f IH]; intros n Hn.
  - simpl in Hn. lia.
  - cbn [digits_rev]. destruct (n <? 10) eqn:Hlt.
    + apply Z.ltb_lt in Hlt. cbn. lia.
    + apply Z.ltb_ge in Hlt. cbn [length].
      assert (Hpow : 2 ^ Z.of_nat (S f) = 2 * 2 ^ Z.of_nat f).
      { rewrite Nat2Z.inj_succ, Z.pow_succ_r by lia. reflexivity. }
      assert (Hdiv : 1 <= n / 10 < 2 ^ Z.of_nat f).
      { split; [apply Z.div_le_lower_bound; lia |].
        apply Z.div_lt_upper_bound; lia. }
      specialize (IH (n / 10) Hdiv).
      set (k := length (digits_rev f (n / 10))) in *.
      assert (Hk : (1 <= k)%nat).
      { destruct k; [| lia]. simpl in IH. lia. }
      rewrite Nat2Z.inj_succ.
      replace (Z.succ (Z.of_nat k) - 1) with (Z.succ (Z.of_nat k - 1)) by lia.
      rewrite !Z.pow_succ_r by lia.
      pose proof (Z.div_mod n 10 ltac:(lia)).
      pose proof (Z.mod_pos_bound n 10 ltac:(lia)).
      lia.
Qed.

Lemma log2_fuel (n : Z) : 1 <= n -> n < 2 ^ Z.of_nat (S (Z.to_nat (Z.log2 n))).
Proof.
  intros Hn.
  rewrite Nat2Z.inj_succ, Z2Nat.id by apply Z.log2_nonneg.
  apply Z.log2_spec. lia.
Qed.

Lemma length_digits (n k : Z) :
  0 <= k -> 10 ^ k <= n < 10 ^ (k + 1) ->
  Z.of_nat (length (digits n)) = k + 1.
Proof.
  intros Hk Hn.
  assert (H1 : 1 <= n).
  { pose proof (Z.pow_pos_nonneg 10 k ltac:(lia) Hk). lia. }
  unfold digits. rewrite length_rev.
  pose proof (digits_rev_bounds _ n (conj H1 (log2_fuel n H1))) as Hb.
  set (len := Z.of_nat (length (digits_rev (S (Z.to_nat (Z.log2 n))) n))) in *.
  assert (Hlen : 0 <= len) by (subst len; lia).
  assert (Hlo : k < len).
  { apply (Z.pow_lt_mono_r_iff 10); lia. }
  assert (Hhi : len - 1 < k + 1).
  { destruct (Z.eq_dec len 0) as [-> | Hne]; [lia |].
    apply (Z.pow_lt_mono_r_iff 10); lia. }
  lia.
Qed.

(** [parseInt] of a digit string that continues with the printed form of a
    positive integer. *)
Lemma parse_digits_toString (acc n : Z) :
  1 <= n ->
  parse_digits acc (toString n)
  = acc * 10 ^ Z.of_nat (length (digits n)) + n.
Proof.
  intros Hn. unfold toString.
  destruct (n <? 0) eqn:Hneg; [apply Z.ltb_lt in Hneg; lia |].
  unfold digits at 1.
  rewrite <- (append_empty_r (string_of_chars _)).
  rewrite parse_digits_rev by (split; [lia | apply log2_fuel; lia]).
  unfold digits. rewrite length_rev. reflexivity.
Qed.

(** The rounding moves a number up by at most one part in 2^53. *)
Lemma round53_bound (n : Z) :
  0 <= n -> 0 <= round53 n /\ round53 n * 2 ^ 53 <= n * (2 ^ 53 + 1).
Proof.
  intros Hn. unfold round53.
  destruct (Z.log2 n - 52 <=? 0) eqn:Hs; [split; lia |].
  apply Z.leb_gt in Hs.
  set (s := Z.log2 n - 52) in *.
  assert (Hpos : 0 < n).
  { destruct (Z.eq_dec n 0) as [-> | ]; [cbn in s; lia | lia]. }
  assert (HS : 0 < 2 ^ s) by (apply Z.pow_pos_nonneg; lia).
  assert (Hhalf : 2 ^ s = 2 * 2 ^ (s - 1)).
  { replace s with (Z.succ (s - 1)) at 1 by lia.
    rewrite Z.pow_succ_r by lia. reflexivity. }
  assert (Hlog : 2 ^ (s - 1) * 2 ^ 53 <= n).
  { rewrite <- Z.pow_add_r by lia.
    replace (s - 1 + 53) with (Z.log2 n) by lia.
    apply Z.log2_spec. exact Hpos. }
  pose proof (Z.div_mod n (2 ^ s) ltac:(lia)) as Hdm.
  pose proof (Z.mod_pos_bound n (2 ^ s) HS) as Hrem.
  assert (Hq : 0 <= n / 2 ^ s) by (apply Z.div_pos; lia).
  set (q := n / 2 ^ s) in *. set (rem := n mod 2 ^ s) in *.
  set (half := 2 ^ (s - 1)) in *. set (S := 2 ^ s) in *.
  assert (Hround : forall m, 0 <= m -> m * S <= n + half ->
                     0 <= m * S /\ m * S * 2 ^ 53 <= n * (2 ^ 53 + 1)).
  { intros m Hm Hle. split; [apply Z.mul_nonneg_nonneg; lia |].
    apply Z.le_trans with (m := (n + half) * 2 ^ 53).
    - apply Z.mul_le_mono_nonneg_r; lia.
    - lia. }
  destruct (rem <? half) eqn:E1.
  - apply Z.ltb_lt in E1. apply Hround; [lia |]. nia.
  - apply Z.ltb_ge in E1.
    assert (Hup : (q + 1) * S <= n + half) by nia.
    destruct (half <? rem); [apply Hround; lia |].
    destruct (Z.even q); apply Hround; lia.
Qed.

(** A double below 1 is below 1 by at least one part in 2^53. *)
Lemma unit01_gap (r : Unit01) :
  unit01_valid r -> mantissa r * 2 ^ 53 <= 2 ^ scale r * (2 ^ 53 - 1).
Proof.
  intros (Hm & Hk & Hlt).
  assert (HK : 0 < 2 ^ scale r) by (apply Z.pow_pos_nonneg; lia).
  destruct (Z.le_gt_cases (scale r) 53) as [Hle | Hgt].
  - assert (2 ^ scale r <= 2 ^ 53) by (apply Z.pow_le_mono_r; lia). nia.
  - assert (2 ^ 53 <= 2 ^ scale r) by (apply Z.pow_le_mono_r; lia). nia.
Qed.

(** The integer part drawn by [generateAccountNumber] is below 90000000,
    also after the rounding of the product. *)
Lemma floor_of_product_range (r : Unit01) :
  unit01_valid r -> 0 <= floor_of_product r 90000000 <= 89999999.
Proof.
  intros Hvalid. pose proof (unit01_gap r Hvalid) as Hgap.
  destruct Hvalid as (Hm & Hk & Hlt).
  assert (HK : 0 < 2 ^ scale r) by (apply Z.pow_pos_nonneg; lia).
  destruct (round53_bound (mantissa r * 90000000) ltac:(lia)) as [H0 Hup].
  unfold floor_of_product.
  set (R := round53 (mantissa r * 90000000)) in *.
  set (K := 2 ^ scale r) in *. set (m := mantissa r) in *.
  split; [apply Z.div_pos; lia |].
  assert (Hlt' : R < 90000000 * K).
  { apply (Z.mul_lt_mono_pos_r (2 ^ 53)); [reflexivity |].
    apply Z.le_lt_trans with (m := m * 90000000 * (2 ^ 53 + 1)); [exact Hup |].
    change (2 ^ 53) with 9007199254740992 in *. nia. }
  assert (R / K < 90000000) by (apply Z.div_lt_upper_bound; lia).
  lia.
Qed.

(** C9. For every double at least 0 and less than 1 that the random source
    returns, [generateAccountNumber] returns the integer written 21
    followed by the eight digits of the number it draws, the floor of the
    double product plus 10000000: a ten-digit number between 2110000000
    and 2199999999. *)
Theorem generateAccountNumber_prefix_21 (random : Unit01) :
  unit01_valid random ->
  let randomNumber := floor_of_product random 90000000 + 10000000 in
  10000000 <= randomNumber <= 99999999 /\
  String.length (toString randomNumber) = 8%nat /\
  String.length ("21" +:+ toString randomNumber) = 10%nat /\
  generateAccountNumber random = Some (2100000000 + randomNumber) /\
  2110000000 <= 2100000000 + randomNumber <= 2199999999.
Proof.
  intros Hvalid randomNumber.
  pose proof (floor_of_product_range random Hvalid) as Hr.
  assert (Hs : 10000000 <= randomNumber <= 99999999) by (subst randomNumber; lia).
  assert (Hlen : Z.of_nat (length (digits randomNumber)) = 8).
  { apply (length_digits randomNumber 7); [lia |].
    change (10 ^ 7) with 10000000. change (10 ^ (7 + 1)) with 100000000. lia. }
  assert (Hl8 : String.length (toString randomNumber) = 8%nat).
  { unfold toString.
    destruct (randomNumber <? 0) eqn:Hneg; [apply Z.ltb_lt in Hneg; lia |].
    rewrite length_string_of_chars. lia. }
  split; [exact Hs |]. split; [exact Hl8 |].
  split.
  { change ("21" +:+ toString randomNumber)
      with (String "2" (String "1" (toString randomNumber))).
    cbn [String.length]. rewrite Hl8. reflexivity. }
  split; [| lia].
  unfold generateAccountNumber. fold randomNumber.
  change ("21" +:+ toString randomNumber)
    with (String "2" (String "1" (toString randomNumber))).
  cbn [parseInt starts_with_digit parse_digits].
  change (digit_of "2") with (Some 2). change (digit_of "1") with (Some 1).
  cbv iota beta.
  rewrite parse_digits_toString by lia.
  rewrite Hlen. change (10 ^ 8) with 100000000. f_equal; lia.
Qed.

(** The double nearest to one third: the exact product with 90000000 is
    just below 30000000 and the double product is 30000000. *)
Lemma generateAccountNumber_prefix_21_witness :
  let third := mkUnit01 6004799503160661 54 in
  floor_of_product third 90000000 = 30000000 /\
  generateAccountNumber third = Some 2140000000.
Proof.
  intros third.
  assert (Hvalid : unit01_valid third).
  { unfold unit01_valid, third. cbn. lia. }
  destruct (generateAccountNumber_prefix_21 third Hvalid) as (_ & _ & _ & Hgen & _).
  split; [reflexivity | exact Hgen].
Defined.

(** The least and the greatest draw, and a draw in between. *)
Example generateAccountNumber_draws :
  generateAccountNumber (mkUnit01 0 0) = Some 2110000000 /\
  generateAccountNumber (mkUnit01 1 1) = Some 2155000000 /\
  generateAccountNumber (mkUnit01 9007199254740991 53) = Some 2199999999.
Proof. vm_compute. repeat split; reflexivity. Qed.

(** ** The table: lookups, counts and updates *)

Lemma find_Some (db : list Account) (n : Z) (acct : Account) :
  find db n = Some acct -> account_number acct = n /\ In acct db.
Proof.
  induction db as [| row rest IH]; simpl; [discriminate |].
  destruct (account_number row =? n) eqn:E.
  - intros [= <-]. apply Z.eqb_eq in E. auto.
  - intros H. destruct (IH H) as [Hn Hin]. auto.
Qed.

Lemma findByOwnerId_Some (db : list Account) (o : Z) (acct : Account) :
  findByOwnerId db o = Some acct -> owner acct = o /\ In acct db.
Proof.
  induction db as [| row rest IH]; simpl; [discriminate |].
  destruct (owner row =? o) eqn:E.
  - intros [= <-]. apply Z.eqb_eq in E. auto.
  - intros H. destruct (IH H) as [Hn Hin]. auto.
Qed.

Lemma owner_rows_nonneg (db : list Account) (o : Z) : 0 <= owner_rows db o.
Proof.
  induction db as [| row rest IH]; simpl; [lia |].
  destruct (owner row =? o); lia.
Qed.

Lemma owner_rows_In (db : list Account) (o : Z) (acct : Account) :
  In acct db -> owner acct = o -> 1 <= owner_rows db o.
Proof.
  induction db as [| row rest IH]; simpl; [tauto |].
  intros [-> | Hin] Ho.
  - rewrite Ho, Z.eqb_refl. pose proof (owner_rows_nonneg rest o). lia.
  - specialize (IH Hin Ho). destruct (owner row =? o); lia.
Qed.

(** When the owner filter selects one row, two rows of that owner are the
    same row. *)
Lemma owner_rows_one (db : list Account) (o : Z) (a1 a2 : Account) :
  owner_rows db o = 1 ->
  In a1 db -> In a2 db -> owner a1 = o -> owner a2 = o -> a1 = a2.
Proof.
  induction db as [| row rest IH]; simpl; [tauto |].
  intros Hone H1 H2 Ho1 Ho2.
  destruct (owner row =? o) eqn:E.
  - assert (Hrest : owner_rows rest o = 0) by lia.
    assert (Hnot : forall a, In a rest -> owner a = o -> False).
    { intros a Ha Hoa. pose proof (owner_rows_In rest o a Ha Hoa). lia. }
    destruct H1 as [<- | H1]; destruct H2 as [<- | H2];
      try reflexivity; exfalso; eauto.
  - apply Z.eqb_neq in E.
    destruct H1 as [<- | H1]; [congruence |].
    destruct H2 as [<- | H2]; [congruence |].
    apply IH; auto; lia.
Qed.

Lemma owner_rows_update_rows (db : list Account) (o b o' : Z) :
  owner_rows (update_rows db o b) o' = owner_rows db o'.
Proof.
  induction db as [| row rest IH]; simpl; [reflexivity |].
  rewrite IH. destruct (owner row =? o); reflexivity.
Qed.

(** The row that [find] returns after an update is the updated form of the
    row it returned before. *)
Lemma find_update_rows (db : list Account) (o b n : Z) :
  find (update_rows db o b) n
  = (fun row => if owner row =? o then set_balance row b else row) <$> find db n.
Proof.
  induction db as [| row rest IH]; simpl; [reflexivity |].
  destruct (owner row =? o) eqn:E; simpl;
    destruct (account_number row =? n); simpl; try rewrite E; auto.
Qed.

Lemma findByOwnerId_update_rows (db : list Account) (o b o' : Z) :
  findByOwnerId (update_rows db o b) o'
  = (fun row => if owner row =? o then set_balance row b else row) <$> findByOwnerId db o'.
Proof.
  induction db as [| row rest IH]; simpl; [reflexivity |].
  destruct (owner row =? o) eqn:E; simpl;
    destruct (owner row =? o'); simpl; try rewrite E; auto.
Qed.

(** ** The transactions of the three handlers *)

Lemma transaction_deposit (db : list Account) (dto : UpdateAccountDto) :
  transaction db (deposit_trx dto)
  = if owner_rows db (upd_owner dto) =? 1
    then (inr tt, update_rows db (upd_owner dto) (upd_balance dto))
    else (inl "Deposit failed", db).
Proof.
  unfold transaction, deposit_trx, trx_bind, update, trx_throw, trx_ret.
  destruct (owner_rows db (upd_owner dto) =? 1); reflexivity.
Qed.

Lemma transaction_withdraw (db : list Account) (sourceAccount : Account) (amount : Z) :
  transaction db (withdraw_trx sourceAccount amount)
  = if owner_rows db (owner sourceAccount) =? 1
    then (inr tt, update_rows db (owner sourceAccount) (balance sourceAccount - amount))
    else (inl "Withdrawal failed", db).
Proof.
  unfold transaction, withdraw_trx, trx_bind, update, trx_throw, trx_ret. simpl.
  destruct (owner_rows db (owner sourceAccount) =? 1); reflexivity.
Qed.

Lemma transaction_transfer (db : list Account) (s r : Account) (amount : Z) :
  transaction db (transfer_trx s r amount)
  = if (owner_rows db (owner s) =? 1) && (owner_rows db (owner r) =? 1)
    then (inr tt,
          update_rows (update_rows db (owner s) (balance s - amount))
                      (owner r) (balance r + amount))
    else (inl "Deposit failed", db).
Proof.
  unfold transaction, transfer_trx, trx_bind, update, trx_throw, trx_ret. simpl.
  rewrite owner_rows_update_rows.
  destruct (owner_rows db (owner s) =? 1), (owner_rows db (owner r) =? 1);
    reflexivity.
Qed.

(** ** The handlers and the idempotency cache *)

(** No handler reads the cache: with any other cache content the
    response and the table are the same. *)
Lemma deposit_never_reads_cache (w : World) (cache : gmap string (Json * Z))
    (req : Request DepositFundsDto) :
  fst (deposit (mkWorld (accounts w) cache) req) = fst (deposit w req) /\
  accounts (snd (deposit (mkWorld (accounts w) cache) req))
  = accounts (snd (deposit w req)).
Proof.
  unfold deposit, deposit_read; simpl.
  destruct (d_amount (body req) <=? 0); [auto |].
  destruct (findByOwnerId (accounts w) (userId req)) as [account |]; [| auto].
  unfold deposit_write; simpl.
  destruct (transaction _ _) as [[e | u] t]; auto.
Qed.

Lemma transfer_never_reads_cache (argon2_verify : string -> string -> bool)
    (w : World) (cache : gmap string (Json * Z)) (req : Request TransferBody) :
  fst (transfer argon2_verify (mkWorld (accounts w) cache) req)
  = fst (transfer argon2_verify w req) /\
  accounts (snd (transfer argon2_verify (mkWorld (accounts w) cache) req))
  = accounts (snd (transfer argon2_verify w req)).
Proof.
  unfold transfer, transfer_read; simpl.
  destruct (validateTransfer (body req)) as [message | value]; [auto |].
  destruct (t_source value =? t_destination value); [auto |].
  destruct (t_amount value <=? 0); [auto |].
  destruct (find (accounts w) (t_source value)) as [s |]; [| auto].
  destruct (find (accounts w) (t_destination value)) as [r |]; [| auto].
  destruct (negb (owner s =? userId req)); [auto |].
  destruct (balance s <? t_amount value); [auto |].
  destruct (negb _); [auto |].
  unfold transfer_write; simpl.
  destruct (transaction _ _) as [[e | u] t]; auto.
Qed.

Lemma withdraw_never_reads_cache (argon2_verify : string -> string -> bool)
    (w : World) (cache : gmap string (Json * Z)) (req : Request WithdrawalBody) :
  fst (withdraw argon2_verify (mkWorld (accounts w) cache) req)
  = fst (withdraw argon2_verify w req) /\
  accounts (snd (withdraw argon2_verify (mkWorld (accounts w) cache) req))
  = accounts (snd (withdraw argon2_verify w req)).
Proof.
  unfold withdraw, withdraw_read; simpl.
  destruct (validateWithdrawal (body req)) as [message | value]; [auto |].
  destruct (find (accounts w) (w_source value)) as [a |]; [| auto].
  destruct (balance a <? w_amount value); [auto |].
  destruct (negb _); [auto |].
  unfold withdraw_write; simpl.
  destruct (transaction _ _) as [[e | u] t]; auto.
Qed.

(** C1. A deposit repeated with the idempotency key of a response that is
    already in the cache runs again: carol deposits 10 twice with the key
    [retry-1]; the first response is cached under her key, yet the second
    call answers with another body and the balance moves twice, to 20. *)
Theorem deposit_retry_runs_again :
  let req := mkRequest 3 (Some "retry-1") (mkDepositFundsDto 10) in
  let first := deposit bank req in
  let second := deposit (snd first) req in
  customCache (snd first) !! "Bearer 3-retry-1" = Some (json (fst first), CACHE_TTL) /\
  json (fst first)
  = JObj [("success", JBool true);
          ("details", JObj [("balance", JNum 10); ("owner", JNum 3)])] /\
  json (fst second)
  = JObj [("success", JBool true);
          ("details", JObj [("balance", JNum 20); ("owner", JNum 3)])] /\
  fst second <> fst first /\
  balance_of bank 2110000003 = Some 0 /\
  balance_of (snd first) 2110000003 = Some 10 /\
  balance_of (snd second) 2110000003 = Some 20.
Proof.
  vm_compute. repeat split; try reflexivity. discriminate.
Qed.

(** C3. The handler has no check on the sign of the amount: a withdrawal
    of an amount that is zero or negative, from an existing account, with a
    pin for which the verify call answers true, is answered with status
    200 and the success object, and the balance of the source becomes the
    balance less the amount, that is no lower than before and higher when
    the amount is negative. *)
Theorem withdraw_nonpositive_amount_commits (argon2_verify : string -> string -> bool)
    (w : World) (req : Request WithdrawalBody) (value : WithdrawalDto) (a : Account) :
  validateWithdrawal (body req) = inr value ->
  find (accounts w) (w_source value) = Some a ->
  w_amount value <= 0 ->
  0 <= balance a ->
  argon2_verify (w_transaction_pin value) (transaction_pin a) = true ->
  owner_rows (accounts w) (owner a) = 1 ->
  fst (withdraw argon2_verify w req)
  = mkResponse 200
      (JObj [("success", JBool true); ("destination", JNum (w_destination value));
             ("source", JNum (w_source value)); ("amount", JNum (w_amount value));
             ("destinationBankName", JStr (w_destinationBankName value))]) /\
  balance_of (snd (withdraw argon2_verify w req)) (w_source value)
  = Some (balance a - w_amount value) /\
  balance a <= balance a - w_amount value.
Proof.
  intros Hv Hfind Hamount Hbal Hpin Hone.
  unfold withdraw, withdraw_read. rewrite Hv, Hfind, Hpin.
  assert ((balance a <? w_amount value) = false) as -> by (apply Z.ltb_ge; lia).
  cbn [negb].
  unfold withdraw_write. rewrite transaction_withdraw, Hone. cbn.
  split; [reflexivity |]. split; [| lia].
  unfold balance_of. cbn. rewrite find_update_rows, Hfind.
  cbn. rewrite Z.eqb_refl. reflexivity.
Qed.

Lemma withdraw_nonpositive_amount_commits_witness :
  let req := mkRequest 2 None
               (mkWithdrawalBody (Some 2110000002) (Some (-5)) (Some 3000000001)
                                 (Some "$toy$[4321]") (Some "Other Bank")) in
  balance_of bank 2110000002 = Some 50 /\
  status (fst (withdraw digest_verify bank req)) = 200 /\
  balance_of (snd (withdraw digest_verify bank req)) 2110000002 = Some 55.
Proof.
  intros req.
  destruct (withdraw_nonpositive_amount_commits digest_verify bank req
              (mkWithdrawalDto 2110000002 (-5) 3000000001 "$toy$[4321]" "Other Bank")
              bob eq_refl eq_refl ltac:(discriminate) ltac:(discriminate)
              eq_refl eq_refl) as (Hres & Hbal & _).
  split; [reflexivity |]. split; [rewrite Hres; reflexivity | exact Hbal].
Defined.

(** ** The response of a deposit *)

(** C8 as the specification states it fails: the body of a successful
    deposit is not the flat object with [balance] and [owner] next to
    [success]. *)
Lemma deposit_response_not_flat :
  let req := mkRequest 3 None (mkDepositFundsDto 10) in
  status (fst (deposit bank req)) = 200 /\
  json (fst (deposit bank req))
  <> JObj [("success", JBool true); ("balance", JNum (0 + 10)); ("owner", JNum 3)].
Proof.
  vm_compute. split; [reflexivity | discriminate].
Qed.

(** C8, amended. The body of a successful deposit of [a] by [u] on an
    account with balance [b] carries [balance: b + a] and [owner: u] in an
    object under the key [details]. *)
Theorem deposit_response_nested (w : World) (req : Request DepositFundsDto) :
  committed (fst (deposit w req)) = true ->
  exists account : Account,
    findByOwnerId (accounts w) (userId req) = Some account /\
    fst (deposit w req)
    = mkResponse 200
        (JObj [("success", JBool true);
               ("details",
                JObj [("balance", JNum (balance account + d_amount (body req)));
                      ("owner", JNum (userId req))])]).
Proof.
  unfold deposit, deposit_read.
  destruct (d_amount (body req) <=? 0); [discriminate |].
  destruct (findByOwnerId (accounts w) (userId req)) as [account |];
    [| discriminate].
  unfold deposit_write. rewrite transaction_deposit. cbn [upd_owner upd_balance].
  destruct (owner_rows (accounts w) (userId req) =? 1); [| discriminate].
  intros _. exists account. split; reflexivity.
Qed.

Lemma deposit_response_nested_witness :
  exists account : Account,
    findByOwnerId (accounts bank) 3 = Some account /\
    fst (deposit bank (mkRequest 3 None (mkDepositFundsDto 10)))
    = mkResponse 200
        (JObj [("success", JBool true);
               ("details",
                JObj [("balance", JNum (balance account + 10)); ("owner", JNum 3)])]).
Proof.
  apply (deposit_response_nested bank (mkRequest 3 None (mkDepositFundsDto 10))).
  reflexivity.
Defined.

(** ** Precedence of the failures of a transfer *)

(** C2 as the specification states it fails: a transfer of amount 0 to an
    account that does not exist violates the existence and the amount
    preconditions; in the specified order the existence failure comes
    first, but the handler answers with the amount failure. *)
Lemma transfer_amount_checked_before_existence :
  let req := mkRequest 1 None
               (mkTransferBody (Some 2110000001) (Some 0) (Some 2199999999)
                               (Some "1234")) in
  first_violation toy_verify bank req specified_order
  = Some (mkResponse 404 (getError (ErrString "One or both bank accounts do not exist."))) /\
  fst (transfer toy_verify bank req)
  = mkResponse 400 (getError (ErrString "Invalid amount")) /\
  first_violation toy_verify bank req specified_order
  <> Some (fst (transfer toy_verify bank req)).
Proof.
  vm_compute. repeat split; try reflexivity. discriminate.
Qed.

(** C2, amended. The handler answers with the failure of the earliest
    violated precondition in the order: schema validation, same account,
    amount, existence of both accounts, ownership, funds, pin; it changes
    nothing then. When no precondition is violated it goes on to the
    transaction. *)
Theorem transfer_failure_precedence (argon2_verify : string -> string -> bool)
    (w : World) (req : Request TransferBody) :
  match first_violation argon2_verify w req handler_order with
  | Some res => transfer argon2_verify w req = (res, w)
  | None =>
      exists value senderAccount recipientAccount,
        validateTransfer (body req) = inr value /\
        find (accounts w) (t_source value) = Some senderAccount /\
        find (accounts w) (t_destination value) = Some recipientAccount /\
        transfer argon2_verify w req
        = transfer_write w req value senderAccount recipientAccount
  end.
Proof.
  unfold transfer, transfer_read, handler_order, first_violation, violation.
  destruct (validateTransfer (body req)) as [message | value]; [reflexivity |].
  destruct (t_source value =? t_destination value); [reflexivity |].
  rewrite (Z.ltb_antisym (t_amount value) 0).
  destruct (t_amount value <=? 0); cbn [negb]; [reflexivity |].
  destruct (find (accounts w) (t_source value)) as [s |] eqn:Hs; [| reflexivity].
  destruct (find (accounts w) (t_destination value)) as [r |] eqn:Hr; [| reflexivity].
  destruct (owner s =? userId req); cbn [negb]; [| reflexivity].
  rewrite (Z.leb_antisym (balance s) (t_amount value)).
  destruct (balance s <? t_amount value); cbn [negb]; [reflexivity |].
  destruct (argon2_verify (t_transaction_pin value) (transaction_pin s));
    cbn [negb]; [| reflexivity].
  exists value, s, r. repeat split; assumption || reflexivity.
Qed.

(** ** The pin check of a transfer *)

(** The transaction of a transfer never answers with the pin failure. *)
Lemma transfer_write_not_pin_failure (w : World) (req : Request TransferBody)
    (value : CreateTransferDto) (s r : Account) :
  json (fst (transfer_write w req value s r))
  <> getError (ErrString "Invalid transaction pin").
Proof.
  unfold transfer_write. rewrite transaction_transfer.
  destruct (_ && _); cbn; discriminate.
Qed.

(** A pin that does not verify leaves everything as it was, whatever the
    other preconditions. *)
Lemma transfer_bad_pin_changes_nothing (argon2_verify : string -> string -> bool)
    (w : World) (req : Request TransferBody) (value : CreateTransferDto)
    (senderAccount : Account) :
  validateTransfer (body req) = inr value ->
  find (accounts w) (t_source value) = Some senderAccount ->
  argon2_verify (t_transaction_pin value) (transaction_pin senderAccount) = false ->
  snd (transfer argon2_verify w req) = w /\
  committed (fst (transfer argon2_verify w req)) = false.
Proof.
  intros Hv Hs Hpin. unfold transfer, transfer_read. rewrite Hv, Hs, Hpin.
  destruct (t_source value =? t_destination value); [auto |].
  destruct (t_amount value <=? 0); [auto |].
  destruct (find (accounts w) (t_destination value)); [| auto].
  destruct (negb (owner senderAccount =? userId req)); [auto |].
  destruct (balance senderAccount <? t_amount value); auto.
Qed.

(** The pin check of a withdrawal, after the checks placed before it. *)
Lemma withdraw_pin_check (argon2_verify : string -> string -> bool)
    (w : World) (req : Request WithdrawalBody) (value : WithdrawalDto)
    (sourceAccount : Account) :
  validateWithdrawal (body req) = inr value ->
  find (accounts w) (w_source value) = Some sourceAccount ->
  w_amount value <= balance sourceAccount ->
  withdraw argon2_verify w req
  = if argon2_verify (w_transaction_pin value) (transaction_pin sourceAccount)
    then withdraw_write w req value sourceAccount
    else (mkResponse 400 (getError (ErrString "Invalid transaction pin")), w).
Proof.
  intros Hv Hs Hfunds. unfold withdraw, withdraw_read. rewrite Hv, Hs.
  assert ((balance sourceAccount <? w_amount value) = false) as ->
      by (apply Z.ltb_ge; lia).
  destruct (argon2_verify _ _); reflexivity.
Qed.

(** C4 as the specification states it fails: a transfer whose pin does
    not verify and whose amount exceeds the balance of the source is
    answered with the funds failure, not with the pin failure; the verify
    call is not reached. *)
Lemma transfer_wrong_pin_insufficient_funds :
  let req := mkRequest 1 None
               (mkTransferBody (Some 2110000001) (Some 500) (Some 2110000002)
                               (Some "$toy$nope")) in
  digest_verify "$toy$nope" (transaction_pin alice) = false /\
  transfer digest_verify bank req
  = (mkResponse 400 (getError (ErrString "Insufficient funds in the sender account.")),
     bank) /\
  fst (transfer digest_verify bank req)
  <> mkResponse 400 (getError (ErrString "Invalid transaction pin")).
Proof.
  vm_compute. repeat split; try reflexivity. discriminate.
Qed.

(** C4, amended. For a transfer that passes the checks placed before the
    pin check (schema, two different accounts, positive amount, both
    accounts found, caller owning the source, funds): when the verify call
    on the pin and the stored pin of the source answers false, the answer
    is the pin failure and the world (table and cache) is unchanged, the
    transaction not being opened; when it answers true, the handler goes
    on to the transaction and the answer is not the pin failure. *)
Theorem transfer_pin_check (argon2_verify : string -> string -> bool)
    (w : World) (req : Request TransferBody) (value : CreateTransferDto)
    (senderAccount recipientAccount : Account) :
  validateTransfer (body req) = inr value ->
  t_source value <> t_destination value ->
  0 < t_amount value ->
  find (accounts w) (t_source value) = Some senderAccount ->
  find (accounts w) (t_destination value) = Some recipientAccount ->
  owner senderAccount = userId req ->
  t_amount value <= balance senderAccount ->
  if argon2_verify (t_transaction_pin value) (transaction_pin senderAccount)
  then
    transfer argon2_verify w req
    = transfer_write w req value senderAccount recipientAccount /\
    json (fst (transfer argon2_verify w req))
    <> getError (ErrString "Invalid transaction pin")
  else
    transfer argon2_verify w req
    = (mkResponse 400 (getError (ErrString "Invalid transaction pin")), w).
Proof.
  intros Hv Hneq Hpos Hs Hr Hown Hfunds.
  assert (Hgo : transfer argon2_verify w req
                = if argon2_verify (t_transaction_pin value) (transaction_pin senderAccount)
                  then transfer_write w req value senderAccount recipientAccount
                  else (mkResponse 400 (getError (ErrString "Invalid transaction pin")), w)).
  { unfold transfer, transfer_read. rewrite Hv, Hs, Hr.
    apply Z.eqb_neq in Hneq. rewrite Hneq.
    assert ((t_amount value <=? 0) = false) as -> by (apply Z.leb_gt; lia).
    assert ((owner senderAccount =? userId req) = true) as -> by (apply Z.eqb_eq; lia).
    assert ((balance senderAccount <? t_amount value) = false) as ->
        by (apply Z.ltb_ge; lia).
    cbn [negb].
    destruct (argon2_verify _ _); reflexivity. }
  rewrite Hgo.
  destruct (argon2_verify _ _); [| reflexivity].
  split; [reflexivity | apply transfer_write_not_pin_failure].
Qed.

Lemma transfer_pin_check_witness :
  let wrong := mkRequest 1 None
                 (mkTransferBody (Some 2110000001) (Some 30) (Some 2110000002)
                                 (Some "$toy$nope")) in
  transfer digest_verify bank wrong
  = (mkResponse 400 (getError (ErrString "Invalid transaction pin")), bank).
Proof.
  intros wrong.
  apply (transfer_pin_check digest_verify bank wrong
           (mkCreateTransferDto 2110000001 30 2110000002 "$toy$nope") alice bob);
    first [reflexivity | discriminate].
Defined.

(** ** Withdrawals and the identity of the caller *)

Lemma committed_withdraw_write (w : World) (req : Request WithdrawalBody)
    (value : WithdrawalDto) (sourceAccount : Account) :
  owner_rows (accounts w) (owner sourceAccount) = 1 ->
  status (fst (withdraw_write w req value sourceAccount)) = 200 /\
  accounts (snd (withdraw_write w req value sourceAccount))
  = update_rows (accounts w) (owner sourceAccount)
      (balance sourceAccount - w_amount value).
Proof.
  intros Hone. unfold withdraw_write. rewrite transaction_withdraw, Hone.
  split; reflexivity.
Qed.

(** C10. The answer of a withdrawal and the table it leaves do not depend
    on the caller; and a caller who does not own the source account, but
    sends its number and a pin that verifies, is answered with a success
    while the account is debited. *)
Theorem withdraw_ignores_caller (argon2_verify : string -> string -> bool)
    (w : World) (req : Request WithdrawalBody) :
  (forall u : Z,
      fst (withdraw argon2_verify w (as_user u req))
      = fst (withdraw argon2_verify w req) /\
      accounts (snd (withdraw argon2_verify w (as_user u req)))
      = accounts (snd (withdraw argon2_verify w req))) /\
  (forall (value : WithdrawalDto) (sourceAccount : Account),
      validateWithdrawal (body req) = inr value ->
      find (accounts w) (w_source value) = Some sourceAccount ->
      owner sourceAccount <> userId req ->
      w_amount value <= balance sourceAccount ->
      argon2_verify (w_transaction_pin value) (transaction_pin sourceAccount) = true ->
      owner_rows (accounts w) (owner sourceAccount) = 1 ->
      status (fst (withdraw argon2_verify w req)) = 200 /\
      balance_of (snd (withdraw argon2_verify w req)) (w_source value)
      = Some (balance sourceAccount - w_amount value)).
Proof.
  split.
  - intros u. unfold withdraw, withdraw_read. cbn [as_user body].
    destruct (validateWithdrawal (body req)) as [message | value]; [auto |].
    destruct (find (accounts w) (w_source value)) as [sourceAccount |]; [| auto].
    destruct (balance sourceAccount <? w_amount value); [auto |].
    destruct (negb _); [auto |].
    unfold withdraw_write. rewrite transaction_withdraw.
    destruct (owner_rows _ _ =? 1); auto.
  - intros value sourceAccount Hv Hfind _ Hfunds Hpin Hone.
    unfold withdraw, withdraw_read. rewrite Hv, Hfind, Hpin.
    assert ((balance sourceAccount <? w_amount value) = false) as ->
        by (apply Z.ltb_ge; lia).
    cbn [negb].
    destruct (committed_withdraw_write w req value sourceAccount Hone) as [Hst Hacc].
    split; [exact Hst |].
    unfold balance_of. rewrite Hacc, find_update_rows, Hfind.
    cbn. rewrite Z.eqb_refl. reflexivity.
Qed.

Lemma withdraw_ignores_caller_witness :
  let req := mkRequest 1 None
               (mkWithdrawalBody (Some 2110000002) (Some 20) (Some 3000000001)
                                 (Some "4321") (Some "Other Bank")) in
  owner bob <> userId req /\
  status (fst (withdraw toy_verify bank req)) = 200 /\
  balance_of (snd (withdraw toy_verify bank req)) 2110000002 = Some (50 - 20).
Proof.
  intros req. split; [discriminate |].
  apply (proj2 (withdraw_ignores_caller toy_verify bank req)
           (mkWithdrawalDto 2110000002 20 3000000001 "4321" "Other Bank") bob);
    first [reflexivity | discriminate].
Defined.

(** ** What the checks of a handler establish *)

Lemma deposit_read_inr (w : World) (req : Request DepositFundsDto) (account : Account) :
  deposit_read w req = inr account ->
  0 < d_amount (body req) /\
  findByOwnerId (accounts w) (userId req) = Some account.
Proof.
  unfold deposit_read.
  destruct (d_amount (body req) <=? 0) eqn:Ha; [discriminate |].
  destruct (findByOwnerId (accounts w) (userId req)) eqn:Hf; [| discriminate].
  intros [= ->]. apply Z.leb_gt in Ha. auto.
Qed.

Section ReadChecks.

Variable argon2_verify : string -> string -> bool.

Lemma transfer_read_inr (w : World) (req : Request TransferBody)
    (value : CreateTransferDto) (s r : Account) :
  transfer_read argon2_verify w req = inr (value, s, r) ->
  validateTransfer (body req) = inr value /\
  t_source value <> t_destination value /\
  0 < t_amount value /\
  find (accounts w) (t_source value) = Some s /\
  find (accounts w) (t_destination value) = Some r /\
  owner s = userId req /\
  t_amount value <= balance s /\
  argon2_verify (t_transaction_pin value) (transaction_pin s) = true.
Proof.
  unfold transfer_read.
  destruct (validateTransfer (body req)) as [message | v]; [discriminate |].
  destruct (t_source v =? t_destination v) eqn:Hsame; [discriminate |].
  destruct (t_amount v <=? 0) eqn:Ha; [discriminate |].
  destruct (find (accounts w) (t_source v)) as [s0 |] eqn:Hs; [| discriminate].
  destruct (find (accounts w) (t_destination v)) as [r0 |] eqn:Hr; [| discriminate].
  destruct (owner s0 =? userId req) eqn:Hown; cbn [negb]; [| discriminate].
  destruct (balance s0 <? t_amount v) eqn:Hfunds; [discriminate |].
  destruct (argon2_verify (t_transaction_pin v) (transaction_pin s0)) eqn:Hpin;
    cbn [negb]; [| discriminate].
  intros [= -> -> ->].
  apply Z.eqb_neq in Hsame. apply Z.leb_gt in Ha.
  apply Z.eqb_eq in Hown. apply Z.ltb_ge in Hfunds.
  repeat split; auto.
Qed.

Lemma withdraw_read_inr (w : World) (req : Request WithdrawalBody)
    (value : WithdrawalDto) (sourceAccount : Account) :
  withdraw_read argon2_verify w req = inr (value, sourceAccount) ->
  validateWithdrawal (body req) = inr value /\
  find (accounts w) (w_source value) = Some sourceAccount /\
  w_amount value <= balance sourceAccount /\
  argon2_verify (w_transaction_pin value) (transaction_pin sourceAccount) = true.
Proof.
  unfold withdraw_read.
  destruct (validateWithdrawal (body req)) as [message | v]; [discriminate |].
  destruct (find (accounts w) (w_source v)) as [a |] eqn:Hs; [| discriminate].
  destruct (balance a <? w_amount v) eqn:Hfunds; [discriminate |].
  destruct (argon2_verify (w_transaction_pin v) (transaction_pin a)) eqn:Hpin;
    cbn [negb]; [| discriminate].
  intros [= -> ->]. apply Z.ltb_ge in Hfunds. auto.
Qed.

End ReadChecks.

(** A request that fails a check is not committed. *)
Lemma deposit_read_inl (w : World) (req : Request DepositFundsDto) (res : Response) :
  deposit_read w req = inl res -> committed res = false.
Proof.
  unfold deposit_read.
  destruct (d_amount (body req) <=? 0); [intros [= <-]; reflexivity |].
  destruct (findByOwnerId _ _); [discriminate |].
  intros [= <-]; reflexivity.
Qed.

Lemma transfer_read_inl (argon2_verify : string -> string -> bool)
    (w : World) (req : Request TransferBody) (res : Response) :
  transfer_read argon2_verify w req = inl res -> committed res = false.
Proof.
  unfold transfer_read.
  destruct (validateTransfer _); [intros [= <-]; reflexivity |].
  destruct (_ =? _); [intros [= <-]; reflexivity |].
  destruct (_ <=? _); [intros [= <-]; reflexivity |].
  destruct (find _ _); [| intros [= <-]; reflexivity].
  destruct (find _ _); [| intros [= <-]; reflexivity].
  destruct (negb _); [intros [= <-]; reflexivity |].
  destruct (_ <? _); [intros [= <-]; reflexivity |].
  destruct (negb _); [intros [= <-]; reflexivity | discriminate].
Qed.

Lemma withdraw_read_inl (argon2_verify : string -> string -> bool)
    (w : World) (req : Request WithdrawalBody) (res : Response) :
  withdraw_read argon2_verify w req = inl res -> committed res = false.
Proof.
  unfold withdraw_read.
  destruct (validateWithdrawal _); [intros [= <-]; reflexivity |].
  destruct (find _ _); [| intros [= <-]; reflexivity].
  destruct (_ <? _); [intros [= <-]; reflexivity |].
  destruct (negb _); [intros [= <-]; reflexivity | discriminate].
Qed.

(** ** Atomicity of a transfer *)

(** The two legs of a committed transfer touch two different owners. *)
Lemma transfer_owners_differ (db : list Account) (s r : Account) (source destination : Z) :
  find db source = Some s -> find db destination = Some r ->
  source <> destination ->
  owner_rows db (owner s) = 1 ->
  owner s <> owner r.
Proof.
  intros Hs Hr Hneq Hone Heq.
  destruct (find_Some _ _ _ Hs) as [Hns Hins].
  destruct (find_Some _ _ _ Hr) as [Hnr Hinr].
  assert (s = r) by (apply (owner_rows_one db (owner s)); auto).
  congruence.
Qed.

(** The table after both updates of a transfer: the sender row holds its
    balance less the amount and the recipient row its balance plus the
    amount. *)
Lemma transfer_rows_after (db : list Account) (s r : Account) (source destination a : Z) :
  find db source = Some s -> find db destination = Some r ->
  source <> destination ->
  owner_rows db (owner s) = 1 ->
  let db' := update_rows (update_rows db (owner s) (balance s - a))
               (owner r) (balance r + a) in
  find db' source = Some (set_balance s (balance s - a)) /\
  find db' destination = Some (set_balance r (balance r + a)).
Proof.
  intros Hs Hr Hneq Hone db'.
  pose proof (transfer_owners_differ db s r source destination Hs Hr Hneq Hone) as Hown.
  subst db'. rewrite !find_update_rows, Hs, Hr. cbn.
  rewrite Z.eqb_refl. cbn.
  assert ((owner s =? owner r) = false) as -> by (apply Z.eqb_neq; exact Hown).
  assert ((owner r =? owner s) = false) as -> by (apply Z.eqb_neq; congruence).
  rewrite Z.eqb_refl. split; reflexivity.
Qed.

(** C5. A transfer of 30 that passed its checks, from an account with
    balance 100 to an account with balance 50: when it commits the two
    balances are 70 and 80; when it does not, the world is as before, with
    balances 100 and 50. It commits exactly when each update affects one
    row. And whenever the update of the recipient does not affect exactly
    one row of the table the transaction runs on (no row at all, for
    instance), the transaction answers with its failure and leaves that
    table as it was, the debit included. *)
Theorem transfer_atomic (argon2_verify : string -> string -> bool)
    (w : World) (req : Request TransferBody) (value : CreateTransferDto)
    (s r : Account) :
  transfer_read argon2_verify w req = inr (value, s, r) ->
  balance s = 100 -> balance r = 50 -> t_amount value = 30 ->
  let result := transfer argon2_verify w req in
  (if committed (fst result)
   then balance_of (snd result) (t_source value) = Some 70 /\
        balance_of (snd result) (t_destination value) = Some 80
   else snd result = w /\
        balance_of (snd result) (t_source value) = Some 100 /\
        balance_of (snd result) (t_destination value) = Some 50) /\
  committed (fst result)
  = (owner_rows (accounts w) (owner s) =? 1) && (owner_rows (accounts w) (owner r) =? 1) /\
  (forall w2 : World,
      owner_rows (accounts w2) (owner r) <> 1 ->
      transfer_write w2 req value s r
      = (handleTransactionError "Deposit failed", w2)).
Proof.
  intros Hread Hbs Hbr Ha result.
  destruct (transfer_read_inr _ _ _ _ _ _ Hread)
    as (Hv & Hneq & Hpos & Hs & Hr & Hown & Hfunds & Hpin).
  assert (Hres : result = transfer_write w req value s r).
  { subst result. unfold transfer. rewrite Hread. reflexivity. }
  rewrite Hres. unfold transfer_write. rewrite transaction_transfer.
  split; [| split].
  - destruct (owner_rows (accounts w) (owner s) =? 1) eqn:E1;
      [destruct (owner_rows (accounts w) (owner r) =? 1) eqn:E2 |]; cbn.
    + apply Z.eqb_eq in E1.
      destruct (transfer_rows_after (accounts w) s r _ _ (t_amount value) Hs Hr Hneq E1)
        as [Hs' Hr'].
      unfold balance_of. rewrite Hs', Hr', Hbs, Hbr, Ha. split; reflexivity.
    + destruct w as [db cache]. unfold balance_of. cbn in *.
      rewrite Hs, Hr. cbn. rewrite Hbs, Hbr. repeat split; reflexivity.
    + destruct w as [db cache]. unfold balance_of. cbn in *.
      rewrite Hs, Hr. cbn. rewrite Hbs, Hbr. repeat split; reflexivity.
  - destruct (_ && _); reflexivity.
  - intros w2 Hrows.
    rewrite transaction_transfer.
    apply Z.eqb_neq in Hrows. rewrite Hrows, andb_false_r.
    destruct w2; reflexivity.
Qed.

Lemma transfer_atomic_witness :
  let req := mkRequest 1 (Some "t-1")
               (mkTransferBody (Some 2110000001) (Some 30) (Some 2110000002)
                               (Some "1234")) in
  let result := transfer toy_verify bank req in
  (balance_of bank 2110000001 = Some 100 /\ balance_of bank 2110000002 = Some 50) /\
  committed (fst result) = true /\
  balance_of (snd result) 2110000001 = Some 70 /\
  balance_of (snd result) 2110000002 = Some 80.
Proof.
  intros req result.
  pose proof (transfer_atomic toy_verify bank req
                (mkCreateTransferDto 2110000001 30 2110000002 "1234") alice bob
                eq_refl eq_refl eq_refl eq_refl) as [Hif [Hcommitted _]].
  fold result in Hif, Hcommitted.
  assert (Hc : committed (fst result) = true) by (rewrite Hcommitted; reflexivity).
  rewrite Hc in Hif.
  split; [split; reflexivity |]. split; [exact Hc | exact Hif].
Defined.

(** The recipient row is gone when the transaction runs: the debit of the
    sender is rolled back with the rest. *)
Example transfer_rollback_when_recipient_row_missing :
  let req := mkRequest 1 None
               (mkTransferBody (Some 2110000001) (Some 30) (Some 2110000002)
                               (Some "1234")) in
  let value := mkCreateTransferDto 2110000001 30 2110000002 "1234" in
  let later := mkWorld [alice; carol] ∅ in
  transfer_write later req value alice bob
  = (mkResponse 400 (getError (ErrObject "Deposit failed")), later) /\
  balance_of later 2110000001 = Some 100.
Proof.
  vm_compute. split; reflexivity.
Qed.

(** ** Lost updates *)

(** C6 as the specification states it fails: two deposits of 10 on the
    account of carol, balance 0, whose reads both come before either
    transaction. Both affected-row checks pass, both requests are answered
    with a success, and the balance ends at 10, not 20. *)
Lemma interleaved_deposits_lose_update :
  let req := mkRequest 3 None (mkDepositFundsDto 10) in
  balance_of bank 2110000003 = Some 0 /\
  (fun '(res1, res2, w') => (status res1, status res2, balance_of w' 2110000003))
    <$> interleaved_deposits bank req req
  = Some (200, 200, Some 10) /\
  (fun '(res1, res2, w') => balance_of w' 2110000003)
    <$> interleaved_deposits bank req req
  <> Some (Some 20).
Proof.
  vm_compute. repeat split; try reflexivity. discriminate.
Qed.

Lemma deposit_write_commits (w : World) (req : Request DepositFundsDto)
    (account : Account) :
  owner_rows (accounts w) (userId req) = 1 ->
  status (fst (deposit_write w req account)) = 200 /\
  accounts (snd (deposit_write w req account))
  = update_rows (accounts w) (userId req) (balance account + d_amount (body req)).
Proof.
  intros Hone. unfold deposit_write. rewrite transaction_deposit.
  cbn [upd_owner upd_balance]. rewrite Hone. split; reflexivity.
Qed.

(** C6, amended. The affected-row check of a deposit only counts the rows
    of the owner: when there is exactly one, the transaction commits
    whatever balance that row holds now, and writes the balance of the
    account as it was read plus the amount. Two deposits handled one after
    the other add both amounts. *)
Theorem deposit_write_uses_read_balance (w : World) (req : Request DepositFundsDto)
    (account current : Account) :
  findByOwnerId (accounts w) (userId req) = Some current ->
  owner_rows (accounts w) (userId req) = 1 ->
  (status (fst (deposit_write w req account)) = 200 /\
   findByOwnerId (accounts (snd (deposit_write w req account))) (userId req)
   = Some (set_balance current (balance account + d_amount (body req)))) /\
  (forall req2 : Request DepositFundsDto,
      userId req2 = userId req ->
      0 < d_amount (body req) -> 0 < d_amount (body req2) ->
      findByOwnerId (accounts (snd (deposit (snd (deposit w req)) req2))) (userId req)
      = Some (set_balance current
                (balance current + d_amount (body req) + d_amount (body req2)))).
Proof.
  intros Hcur Hone.
  assert (Hwrite : forall (w0 : World) (r0 : Request DepositFundsDto) (a0 c0 : Account),
             findByOwnerId (accounts w0) (userId r0) = Some c0 ->
             owner_rows (accounts w0) (userId r0) = 1 ->
             status (fst (deposit_write w0 r0 a0)) = 200 /\
             owner_rows (accounts (snd (deposit_write w0 r0 a0))) (userId r0) = 1 /\
             findByOwnerId (accounts (snd (deposit_write w0 r0 a0))) (userId r0)
             = Some (set_balance c0 (balance a0 + d_amount (body r0)))).
  { intros w0 r0 a0 c0 Hc0 H1.
    destruct (deposit_write_commits w0 r0 a0 H1) as [Hst Hacc].
    rewrite Hacc, owner_rows_update_rows, findByOwnerId_update_rows, Hc0.
    destruct (findByOwnerId_Some _ _ _ Hc0) as [Ho _].
    cbn. rewrite Ho, Z.eqb_refl. auto. }
  split.
  - destruct (Hwrite w req account current Hcur Hone) as (Hst & _ & Hfind). auto.
  - intros req2 Hu Ha1 Ha2.
    assert (Hd1 : deposit w req = deposit_write w req current).
    { unfold deposit, deposit_read.
      assert ((d_amount (body req) <=? 0) = false) as -> by (apply Z.leb_gt; lia).
      rewrite Hcur. reflexivity. }
    destruct (Hwrite w req current current Hcur Hone) as (_ & Hone1 & Hcur1).
    rewrite <- Hd1 in Hone1, Hcur1.
    set (w1 := snd (deposit w req)) in *.
    rewrite <- Hu in Hone1, Hcur1 |- *.
    assert (Hd2 : deposit w1 req2
                  = deposit_write w1 req2
                      (set_balance current (balance current + d_amount (body req)))).
    { unfold deposit, deposit_read.
      assert ((d_amount (body req2) <=? 0) = false) as -> by (apply Z.leb_gt; lia).
      rewrite Hcur1. reflexivity. }
    rewrite Hd2.
    destruct (Hwrite w1 req2
                (set_balance current (balance current + d_amount (body req)))
                _ Hcur1 Hone1) as (_ & _ & Hfind).
    rewrite Hfind. reflexivity.
Qed.

Lemma deposit_write_uses_read_balance_witness :
  let req := mkRequest 3 None (mkDepositFundsDto 10) in
  let later := mkWorld [alice; bob; set_balance carol 10] ∅ in
  status (fst (deposit_write later req carol)) = 200 /\
  findByOwnerId (accounts (snd (deposit_write later req carol))) 3
  = Some (set_balance (set_balance carol 10) (0 + 10)).
Proof.
  intros req later.
  apply (proj1 (deposit_write_uses_read_balance later req carol (set_balance carol 10)
                  eq_refl eq_refl)).
Defined.

(** ** Balances along a sequence of operations *)

Lemma moved_refl (acct : Account) : moved acct acct 0.
Proof. unfold moved. repeat split; auto; lia. Qed.

Lemma requested_delta_moved (op : Operation) (acct acct' : Account) (d : Z) :
  moved acct acct' d -> requested_delta op acct' = requested_delta op acct.
Proof.
  intros (Ho & Hn & _). unfold requested_delta. rewrite Ho, Hn. reflexivity.
Qed.

Section Steps.

Variable argon2_verify : string -> string -> bool.

Lemma deposit_step (w : World) (req : Request DepositFundsDto) (n : Z) (acct : Account) :
  find (accounts w) n = Some acct ->
  exists acct',
    find (accounts (snd (deposit w req))) n = Some acct' /\
    moved acct acct' (applied_delta argon2_verify w (OpDeposit req) acct).
Proof.
  intros Hfind. unfold applied_delta, execute, deposit.
  destruct (deposit_read w req) as [res | account] eqn:Hread.
  - pose proof (deposit_read_inl _ _ _ Hread) as Hc.
    cbn [fst snd]. rewrite Hc. exists acct. split; [exact Hfind | apply moved_refl].
  - destruct (deposit_read_inr _ _ _ Hread) as [Hpos Hacc].
    unfold deposit_write. rewrite transaction_deposit. cbn [upd_owner upd_balance].
    destruct (owner_rows (accounts w) (userId req) =? 1) eqn:Hone; cbn.
    + apply Z.eqb_eq in Hone.
      rewrite find_update_rows, Hfind. cbn.
      destruct (owner acct =? userId req) eqn:Ho.
      * apply Z.eqb_eq in Ho.
        destruct (findByOwnerId_Some _ _ _ Hacc) as [Ho' Hin'].
        destruct (find_Some _ _ _ Hfind) as [_ Hin].
        assert (acct = account) as <-
            by (apply (owner_rows_one (accounts w) (userId req)); auto).
        eexists; split; [reflexivity |].
        unfold moved; cbn. repeat split; lia.
      * exists acct. split; [reflexivity | apply moved_refl].
    + exists acct. split; [exact Hfind | apply moved_refl].
Qed.

Lemma withdraw_step (w : World) (req : Request WithdrawalBody) (n : Z) (acct : Account) :
  find (accounts w) n = Some acct ->
  exists acct',
    find (accounts (snd (withdraw argon2_verify w req))) n = Some acct' /\
    moved acct acct' (applied_delta argon2_verify w (OpWithdraw req) acct).
Proof.
  intros Hfind. unfold applied_delta, execute, withdraw.
  destruct (withdraw_read argon2_verify w req) as [res | [value a]] eqn:Hread.
  - pose proof (withdraw_read_inl argon2_verify _ _ _ Hread) as Hc.
    cbn [fst snd]. rewrite Hc. exists acct. split; [exact Hfind | apply moved_refl].
  - destruct (withdraw_read_inr _ _ _ _ _ Hread) as (Hv & Hsrc & Hfunds & _).
    unfold withdraw_write. rewrite transaction_withdraw.
    destruct (owner_rows (accounts w) (owner a) =? 1) eqn:Hone; cbn.
    + apply Z.eqb_eq in Hone.
      rewrite find_update_rows, Hfind, Hv. cbn.
      destruct (find_Some _ _ _ Hfind) as [Hn Hin].
      destruct (find_Some _ _ _ Hsrc) as [Hna Hina].
      destruct (owner acct =? owner a) eqn:Ho.
      * apply Z.eqb_eq in Ho.
        assert (acct = a) as ->
            by (apply (owner_rows_one (accounts w) (owner a)); auto).
        rewrite Hna, Z.eqb_refl.
        eexists; split; [reflexivity |].
        unfold moved; cbn. repeat split; lia.
      * assert ((account_number acct =? w_source value) = false) as ->.
        { apply Z.eqb_neq. intros Heq.
          rewrite <- Hn, Heq, Hsrc in Hfind. injection Hfind as ->.
          rewrite Z.eqb_refl in Ho. discriminate. }
        exists acct. split; [reflexivity | apply moved_refl].
    + exists acct. split; [exact Hfind | apply moved_refl].
Qed.

Lemma transfer_step (w : World) (req : Request TransferBody) (n : Z) (acct : Account) :
  find (accounts w) n = Some acct ->
  exists acct',
    find (accounts (snd (transfer argon2_verify w req))) n = Some acct' /\
    moved acct acct' (applied_delta argon2_verify w (OpTransfer req) acct).
Proof.
  intros Hfind. unfold applied_delta, execute, transfer.
  destruct (transfer_read argon2_verify w req) as [res | [[value s] r]] eqn:Hread.
  - pose proof (transfer_read_inl argon2_verify _ _ _ Hread) as Hc.
    cbn [fst snd]. rewrite Hc. exists acct. split; [exact Hfind | apply moved_refl].
  - destruct (transfer_read_inr _ _ _ _ _ _ Hread)
      as (Hv & Hneq & Hpos & Hs & Hr & _ & Hfunds & _).
    unfold transfer_write. rewrite transaction_transfer.
    destruct (owner_rows (accounts w) (owner s) =? 1) eqn:Hone_s;
      [destruct (owner_rows (accounts w) (owner r) =? 1) eqn:Hone_r |]; cbn;
      try (exists acct; split; [exact Hfind | apply moved_refl]).
    apply Z.eqb_eq in Hone_s. apply Z.eqb_eq in Hone_r.
    pose proof (transfer_owners_differ _ _ _ _ _ Hs Hr Hneq Hone_s) as Hdiff.
    rewrite !find_update_rows, Hfind, Hv. cbn.
    destruct (find_Some _ _ _ Hfind) as [Hn Hin].
    destruct (find_Some _ _ _ Hs) as [Hns Hins].
    destruct (find_Some _ _ _ Hr) as [Hnr Hinr].
    destruct (owner acct =? owner s) eqn:Hos.
    + apply Z.eqb_eq in Hos.
      assert (acct = s) as ->
          by (apply (owner_rows_one (accounts w) (owner s)); auto).
      cbn. assert ((owner s =? owner r) = false) as -> by (apply Z.eqb_neq; exact Hdiff).
      rewrite Hns, Z.eqb_refl.
      assert ((t_source value =? t_destination value) = false) as ->
          by (apply Z.eqb_neq; exact Hneq).
      eexists; split; [reflexivity |].
      unfold moved; cbn. repeat split; lia.
    + assert ((account_number acct =? t_source value) = false) as ->.
      { apply Z.eqb_neq. intros Heq.
        rewrite <- Hn, Heq, Hs in Hfind. injection Hfind as ->.
        rewrite Z.eqb_refl in Hos. discriminate. }
      destruct (owner acct =? owner r) eqn:Hor.
      * apply Z.eqb_eq in Hor.
        assert (acct = r) as ->
            by (apply (owner_rows_one (accounts w) (owner r)); auto).
        rewrite Hnr, Z.eqb_refl.
        eexists; split; [reflexivity |].
        unfold moved; cbn. repeat split; lia.
      * assert ((account_number acct =? t_destination value) = false) as ->.
        { apply Z.eqb_neq. intros Heq.
          rewrite <- Hn, Heq, Hr in Hfind. injection Hfind as ->.
          rewrite Z.eqb_refl in Hor. discriminate. }
        exists acct. split; [reflexivity | apply moved_refl].
Qed.

Lemma execute_step (w : World) (op : Operation) (n : Z) (acct : Account) :
  find (accounts w) n = Some acct ->
  exists acct',
    find (accounts (snd (execute argon2_verify w op))) n = Some acct' /\
    moved acct acct' (applied_delta argon2_verify w op acct).
Proof.
  destruct op as [req | req | req]; cbn [execute].
  - apply deposit_step.
  - apply transfer_step.
  - apply withdraw_step.
Qed.

Lemma applied_deltas_moved (ops : list Operation) :
  forall (w : World) (acct acct' : Account) (d : Z),
    moved acct acct' d ->
    applied_deltas argon2_verify w ops acct' = applied_deltas argon2_verify w ops acct.
Proof.
  induction ops as [| op rest IH]; intros w acct acct' d Hm; cbn; [reflexivity |].
  unfold applied_delta. rewrite (requested_delta_moved op acct acct' d Hm).
  rewrite (IH _ acct acct' d Hm). reflexivity.
Qed.

End Steps.

(** Balances along [run], in the integers. *)
Lemma balance_after_run (argon2_verify : string -> string -> bool)
    (ops : list Operation) (w : World) (n : Z) (acct : Account) :
  find (accounts w) n = Some acct ->
  exists acct',
    find (accounts (run argon2_verify w ops)) n = Some acct' /\
    balance acct' = balance acct + applied_deltas argon2_verify w ops acct /\
    (0 <= balance acct -> 0 <= balance acct') /\
    owner acct' = owner acct /\
    account_number acct' = account_number acct.
Proof.
  revert w acct.
  induction ops as [| op rest IH]; intros w acct Hfind.
  - exists acct. cbn. repeat split; auto; lia.
  - destruct (execute_step argon2_verify w op n acct Hfind) as (acct1 & Hfind1 & Hm).
    destruct (IH _ _ Hfind1) as (acct' & Hfind' & Hbal & Hnn & Ho & Hn).
    exists acct'. cbn [run applied_deltas].
    rewrite (applied_deltas_moved argon2_verify rest _ acct acct1 _ Hm) in Hbal.
    destruct Hm as (Ho1 & Hn1 & _ & Hb1 & Hnn1).
    repeat split; try congruence; try lia; auto.
Qed.

Lemma safe_numberb_sound (n : Z) : safe_numberb n = true -> safe_number n.
Proof.
  unfold safe_numberb, safe_number. intros H.
  apply andb_true_iff in H as [H1 H2].
  apply Z.leb_le in H1. apply Z.leb_le in H2. auto.
Qed.

Lemma safe_tableb_sound (db : list Account) : safe_tableb db = true -> safe_table db.
Proof.
  unfold safe_tableb, safe_table. intros H.
  apply List.Forall_forall. intros row Hin.
  rewrite forallb_forall in H. apply safe_numberb_sound. auto.
Qed.

Lemma exact_runb_sound (argon2_verify : string -> string -> bool) (ops : list Operation) :
  forall w : World,
    exact_runb argon2_verify w ops = true -> exact_run argon2_verify w ops.
Proof.
  induction ops as [| op rest IH]; intros w; cbn [exact_runb exact_run]; intros H.
  - apply andb_true_iff in H as [H1 _]. split; [apply safe_tableb_sound; exact H1 | exact I].
  - apply andb_true_iff in H as [H1 H2]. apply andb_true_iff in H2 as [H2 H3].
    split; [apply safe_tableb_sound; exact H1 |].
    split; [apply safe_numberb_sound; exact H2 | apply IH; exact H3].
Qed.

Lemma exact_run_end (argon2_verify : string -> string -> bool) (ops : list Operation) :
  forall w : World,
    exact_run argon2_verify w ops ->
    safe_table (accounts (run argon2_verify w ops)).
Proof.
  induction ops as [| op rest IH]; intros w; cbn [exact_run run].
  - tauto.
  - intros (_ & _ & Hrest). apply IH. exact Hrest.
Qed.

(** C7 as the specification states it fails: two deposits of 10 on the
    account of carol, balance 0, whose reads both come before either
    transaction, both commit; the deltas they apply sum to 20 and the
    balance ends at 10. *)
Lemma interleaved_deposits_break_sum :
  let req := mkRequest 3 None (mkDepositFundsDto 10) in
  find (accounts bank) 2110000003 = Some carol /\
  balance carol = 0 /\
  requested_delta (OpDeposit req) carol + requested_delta (OpDeposit req) carol = 20 /\
  (fun '(res1, res2, w') => (committed res1, committed res2, balance_of w' 2110000003))
    <$> interleaved_deposits bank req req
  = Some (true, true, Some 10) /\
  (fun '(res1, res2, w') => balance_of w' 2110000003)
    <$> interleaved_deposits bank req req
  <> Some (Some (balance carol + 20)).
Proof.
  vm_compute. repeat split; try reflexivity. discriminate.
Qed.

(** C7, amended. Along any sequence of operations handled one after the
    other, each reading the table only after the one before has ended, and
    as long as every amount and every balance met is a safe integer (the
    domain on which the additions of the handlers are exact): every
    account keeps its number and owner; its balance is the balance it had
    plus the sum of the deltas applied by the operations that committed;
    it is again a safe integer; and a balance that was not negative is not
    negative at the end. *)
Theorem balance_is_sum_of_applied_deltas (argon2_verify : string -> string -> bool)
    (ops : list Operation) (w : World) (n : Z) (acct : Account) :
  exact_run argon2_verify w ops ->
  find (accounts w) n = Some acct ->
  exists acct',
    find (accounts (run argon2_verify w ops)) n = Some acct' /\
    balance acct' = balance acct + applied_deltas argon2_verify w ops acct /\
    safe_number (balance acct') /\
    (0 <= balance acct -> 0 <= balance acct') /\
    owner acct' = owner acct /\
    account_number acct' = account_number acct.
Proof.
  intros Hexact Hfind.
  destruct (balance_after_run argon2_verify ops w n acct Hfind)
    as (acct' & Hfind' & Hbal & Hnn & Ho & Hn).
  exists acct'. repeat split; auto.
  - pose proof (exact_run_end argon2_verify ops w Hexact) as Hsafe.
    destruct (find_Some _ _ _ Hfind') as [_ Hin].
    unfold safe_table in Hsafe. rewrite List.Forall_forall in Hsafe.
    destruct (Hsafe acct' Hin) as [Hlo _]. exact Hlo.
  - pose proof (exact_run_end argon2_verify ops w Hexact) as Hsafe.
    destruct (find_Some _ _ _ Hfind') as [_ Hin].
    unfold safe_table in Hsafe. rewrite List.Forall_forall in Hsafe.
    destruct (Hsafe acct' Hin) as [_ Hhi]. exact Hhi.
Qed.

Lemma balance_is_sum_of_applied_deltas_witness :
  let ops := [OpDeposit (mkRequest 1 None (mkDepositFundsDto 25));
              OpTransfer (mkRequest 1 None
                (mkTransferBody (Some 2110000001) (Some 30) (Some 2110000002)
                                (Some "$toy$[1234]")));
              OpWithdraw (mkRequest 1 None
                (mkWithdrawalBody (Some 2110000001) (Some 500) (Some 3000000001)
                                  (Some "$toy$[1234]") (Some "Other Bank")));
              OpWithdraw (mkRequest 1 None
                (mkWithdrawalBody (Some 2110000001) (Some 45) (Some 3000000001)
                                  (Some "$toy$[1234]") (Some "Other Bank")))] in
  applied_deltas digest_verify bank ops alice = 25 - 30 - 45 /\
  exists acct',
    find (accounts (run digest_verify bank ops)) 2110000001 = Some acct' /\
    balance acct' = balance alice + applied_deltas digest_verify bank ops alice /\
    safe_number (balance acct') /\
    (0 <= balance alice -> 0 <= balance acct') /\
    owner acct' = owner alice /\
    account_number acct' = account_number alice.
Proof.
  intros ops. split; [reflexivity |].
  apply (balance_is_sum_of_applied_deltas digest_verify ops bank 2110000001 alice).
  - apply exact_runb_sound. reflexivity.
  - reflexivity.
Defined.

(** * Further properties *)

(** ** What the handlers keep and what they change *)

Lemma world_eta (w : World) : mkWorld (accounts w) (customCache w) = w.
Proof. destruct w; reflexivity. Qed.

Lemma deposit_write_result (w : World) (req : Request DepositFundsDto) (account : Account) :
  deposit_write w req account
  = if owner_rows (accounts w) (userId req) =? 1
    then (mkResponse 200
            (JObj [("success", JBool true);
                   ("details",
                    JObj [("balance", JNum (balance account + d_amount (body req)));
                          ("owner", JNum (userId req))])]),
          mkWorld (update_rows (accounts w) (userId req)
                     (balance account + d_amount (body req)))
            (cacheResponseIfKeyExists (customCache w) req (idempotency_key req)
               (JObj [("success", JBool true);
                      ("details",
                       JObj [("balance", JNum (balance account + d_amount (body req)));
                             ("owner", JNum (userId req))])])))
    else (handleTransactionError "Deposit failed", w).
Proof.
  unfold deposit_write. rewrite transaction_deposit. cbn [upd_owner upd_balance].
  destruct (owner_rows (accounts w) (userId req) =? 1); [reflexivity |].
  rewrite world_eta. reflexivity.
Qed.

Lemma transfer_write_result (w : World) (req : Request TransferBody)
    (value : CreateTransferDto) (s r : Account) :
  transfer_write w req value s r
  = if (owner_rows (accounts w) (owner s) =? 1) && (owner_rows (accounts w) (owner r) =? 1)
    then (mkResponse 200
            (JObj [("success", JBool true); ("destination", JNum (t_destination value));
                   ("source", JNum (t_source value)); ("amount", JNum (t_amount value))]),
          mkWorld (update_rows (update_rows (accounts w) (owner s)
                                  (balance s - t_amount value))
                     (owner r) (balance r + t_amount value))
            (cacheResponseIfKeyExists (customCache w) req (idempotency_key req)
               (JObj [("success", JBool true); ("destination", JNum (t_destination value));
                      ("source", JNum (t_source value)); ("amount", JNum (t_amount value))])))
    else (handleTransactionError "Deposit failed", w).
Proof.
  unfold transfer_write. rewrite transaction_transfer.
  destruct (_ && _); [reflexivity |].
  rewrite world_eta. reflexivity.
Qed.

Lemma withdraw_write_result (w : World) (req : Request WithdrawalBody)
    (value : WithdrawalDto) (a : Account) :
  withdraw_write w req value a
  = if owner_rows (accounts w) (owner a) =? 1
    then (mkResponse 200
            (JObj [("success", JBool true); ("destination", JNum (w_destination value));
                   ("source", JNum (w_source value)); ("amount", JNum (w_amount value));
                   ("destinationBankName", JStr (w_destinationBankName value))]),
          mkWorld (update_rows (accounts w) (owner a) (balance a - w_amount value))
            (cacheResponseIfKeyExists (customCache w) req (idempotency_key req)
               (JObj [("success", JBool true); ("destination", JNum (w_destination value));
                      ("source", JNum (w_source value)); ("amount", JNum (w_amount value));
                      ("destinationBankName", JStr (w_destinationBankName value))])))
    else (handleTransactionError "Withdrawal failed", w).
Proof.
  unfold withdraw_write. rewrite transaction_withdraw.
  destruct (_ =? 1); [reflexivity |].
  rewrite world_eta. reflexivity.
Qed.

(** X4. An operation that is not answered with status 200 leaves the
    world as it was: the table (a transaction that throws is rolled back)
    and the cache (a failure is never cached). *)
Theorem failure_changes_nothing (argon2_verify : string -> string -> bool)
    (w : World) (op : Operation) :
  committed (fst (execute argon2_verify w op)) = false ->
  snd (execute argon2_verify w op) = w.
Proof.
  destruct op as [req | req | req]; cbn [execute].
  - unfold deposit. destruct (deposit_read w req) as [res | account]; [reflexivity |].
    rewrite deposit_write_result.
    destruct (_ =? 1); [discriminate | reflexivity].
  - unfold transfer.
    destruct (transfer_read argon2_verify w req) as [res | [[value s] r]];
      [reflexivity |].
    rewrite transfer_write_result.
    destruct (_ && _); [discriminate | reflexivity].
  - unfold withdraw.
    destruct (withdraw_read argon2_verify w req) as [res | [value a]];
      [reflexivity |].
    rewrite withdraw_write_result.
    destruct (_ =? 1); [discriminate | reflexivity].
Qed.

Lemma failure_changes_nothing_witness :
  let req := mkRequest 2 (Some "k")
               (mkTransferBody (Some 2110000002) (Some 80) (Some 2110000001)
                               (Some "4321")) in
  snd (transfer toy_verify bank req) = bank.
Proof.
  intros req.
  apply (failure_changes_nothing toy_verify bank (OpTransfer req)). reflexivity.
Defined.

Lemma identity_update_rows (db : list Account) (o b : Z) :
  map identity_of (update_rows db o b) = map identity_of db.
Proof.
  induction db as [| row rest IH]; cbn; [reflexivity |].
  rewrite IH. destruct (owner row =? o); reflexivity.
Qed.

Lemma identity_execute (argon2_verify : string -> string -> bool)
    (w : World) (op : Operation) :
  map identity_of (accounts (snd (execute argon2_verify w op)))
  = map identity_of (accounts w).
Proof.
  destruct op as [req | req | req]; cbn [execute].
  - unfold deposit. destruct (deposit_read w req) as [res | account]; [reflexivity |].
    rewrite deposit_write_result.
    destruct (_ =? 1); cbn; [apply identity_update_rows | reflexivity].
  - unfold transfer.
    destruct (transfer_read argon2_verify w req) as [res | [[value s] r]];
      [reflexivity |].
    rewrite transfer_write_result.
    destruct (_ && _); cbn; [| reflexivity].
    rewrite !identity_update_rows. reflexivity.
  - unfold withdraw.
    destruct (withdraw_read argon2_verify w req) as [res | [value a]];
      [reflexivity |].
    rewrite withdraw_write_result.
    destruct (_ =? 1); cbn; [apply identity_update_rows | reflexivity].
Qed.

(** X5. Whatever operations are handled, the table keeps its rows, in the
    same order, each with its owner, its account number and its stored
    pin: no handler creates, deletes or moves an account, and only
    balances are written. *)
Theorem handlers_write_balances_only (argon2_verify : string -> string -> bool)
    (ops : list Operation) (w : World) :
  map identity_of (accounts (run argon2_verify w ops))
  = map identity_of (accounts w).
Proof.
  revert w. induction ops as [| op rest IH]; intros w; cbn [run]; [reflexivity |].
  rewrite IH. apply identity_execute.
Qed.

(** X6. No handler reads the idempotency cache: the answer to an
    operation and the table it leaves are the same whatever the cache
    holds, in particular when it holds a response for the key of the
    request. *)
Theorem handlers_never_read_cache (argon2_verify : string -> string -> bool)
    (w : World) (cache : gmap string (Json * Z)) (op : Operation) :
  fst (execute argon2_verify (mkWorld (accounts w) cache) op)
  = fst (execute argon2_verify w op) /\
  accounts (snd (execute argon2_verify (mkWorld (accounts w) cache) op))
  = accounts (snd (execute argon2_verify w op)).
Proof.
  destruct op as [req | req | req]; cbn [execute].
  - apply deposit_never_reads_cache.
  - apply transfer_never_reads_cache.
  - apply withdraw_never_reads_cache.
Qed.

(** ** The ledger *)

Lemma update_rows_none (db : list Account) (o b : Z) :
  owner_rows db o = 0 -> update_rows db o b = db.
Proof.
  induction db as [| row rest IH]; cbn; [reflexivity |].
  pose proof (owner_rows_nonneg rest o).
  destruct (owner row =? o); intros H0; [lia |].
  rewrite IH by lia. reflexivity.
Qed.

Lemma total_update_rows_one (db : list Account) (o b : Z) (row : Account) :
  owner_rows db o = 1 -> In row db -> owner row = o ->
  total_balance (update_rows db o b) = total_balance db - balance row + b.
Proof.
  induction db as [| r0 rest IH]; cbn; [tauto |].
  intros Hone Hin Ho.
  destruct (owner r0 =? o) eqn:E.
  - assert (Hrest : owner_rows rest o = 0) by lia.
    rewrite (update_rows_none rest o b Hrest).
    destruct Hin as [-> | Hin].
    + cbn. lia.
    + pose proof (owner_rows_In rest o row Hin Ho). lia.
  - apply Z.eqb_neq in E.
    destruct Hin as [-> | Hin]; [congruence |].
    rewrite IH by (auto; lia). lia.
Qed.

Lemma In_update_rows_other (db : list Account) (o b : Z) (row : Account) :
  In row db -> owner row <> o -> In row (update_rows db o b).
Proof.
  induction db as [| r0 rest IH]; cbn; [tauto |].
  intros [-> | Hin] Ho.
  - left. apply Z.eqb_neq in Ho. rewrite Ho. reflexivity.
  - right. auto.
Qed.

Lemma ledger_step (argon2_verify : string -> string -> bool)
    (w : World) (op : Operation) :
  total_balance (accounts (snd (execute argon2_verify w op)))
  = total_balance (accounts w)
    + (if committed (fst (execute argon2_verify w op)) then net_flow op else 0).
Proof.
  destruct op as [req | req | req]; cbn [execute net_flow].
  - unfold deposit. destruct (deposit_read w req) as [res | account] eqn:Hread.
    + cbn [fst snd]. rewrite (deposit_read_inl _ _ _ Hread). cbn. lia.
    + destruct (deposit_read_inr _ _ _ Hread) as [_ Hacc].
      destruct (findByOwnerId_Some _ _ _ Hacc) as [Ho Hin].
      rewrite deposit_write_result.
      destruct (_ =? 1) eqn:Hone; cbn; [| lia].
      apply Z.eqb_eq in Hone.
      rewrite (total_update_rows_one _ _ _ account Hone Hin Ho). lia.
  - unfold transfer.
    destruct (transfer_read argon2_verify w req) as [res | [[value s] r]] eqn:Hread.
    + cbn [fst snd]. rewrite (transfer_read_inl _ _ _ _ Hread). cbn. lia.
    + destruct (transfer_read_inr _ _ _ _ _ _ Hread)
        as (_ & Hneq & _ & Hs & Hr & _).
      destruct (find_Some _ _ _ Hs) as [_ Hins].
      destruct (find_Some _ _ _ Hr) as [_ Hinr].
      rewrite transfer_write_result.
      destruct (owner_rows (accounts w) (owner s) =? 1) eqn:H1;
        [destruct (owner_rows (accounts w) (owner r) =? 1) eqn:H2 |]; cbn; try lia.
      apply Z.eqb_eq in H1. apply Z.eqb_eq in H2.
      pose proof (transfer_owners_differ _ _ _ _ _ Hs Hr Hneq H1) as Hdiff.
      rewrite (total_update_rows_one _ (owner r) _ r).
      * rewrite (total_update_rows_one _ (owner s) _ s H1 Hins eq_refl). lia.
      * rewrite owner_rows_update_rows. exact H2.
      * apply In_update_rows_other; [exact Hinr | congruence].
      * reflexivity.
  - unfold withdraw.
    destruct (withdraw_read argon2_verify w req) as [res | [value a]] eqn:Hread.
    + cbn [fst snd]. rewrite (withdraw_read_inl _ _ _ _ Hread). cbn. lia.
    + destruct (withdraw_read_inr _ _ _ _ _ Hread) as (Hv & Hs & _).
      destruct (find_Some _ _ _ Hs) as [_ Hin].
      rewrite withdraw_write_result, Hv.
      destruct (_ =? 1) eqn:Hone; cbn; [| lia].
      apply Z.eqb_eq in Hone.
      rewrite (total_update_rows_one _ _ _ a Hone Hin eq_refl). lia.
Qed.

(** The ledger along [run], in the integers. *)
Lemma ledger_run (argon2_verify : string -> string -> bool)
    (ops : list Operation) (w : World) :
  total_balance (accounts (run argon2_verify w ops))
  = total_balance (accounts w) + net_flows argon2_verify w ops.
Proof.
  revert w. induction ops as [| op rest IH]; intros w; cbn [run net_flows]; [lia |].
  rewrite IH, ledger_step. lia.
Qed.

(** X7. Along any sequence of operations handled one after the other, as
    long as every amount and every balance met is a safe integer (the
    domain on which the additions of the handlers are exact), the sum of
    all the balances at the end is the sum at the start, plus the amounts
    of the deposits that committed, less the amounts of the withdrawals
    that committed: a transfer, committed or not, does not change the sum.
    Every balance at the end is again a safe integer. *)
Theorem ledger_balances (argon2_verify : string -> string -> bool)
    (ops : list Operation) (w : World) :
  exact_run argon2_verify w ops ->
  total_balance (accounts (run argon2_verify w ops))
  = total_balance (accounts w) + net_flows argon2_verify w ops /\
  safe_table (accounts (run argon2_verify w ops)).
Proof.
  intros Hexact. split; [apply ledger_run | apply exact_run_end; exact Hexact].
Qed.

Lemma ledger_balances_witness :
  let ops := [OpDeposit (mkRequest 1 None (mkDepositFundsDto 25));
              OpTransfer (mkRequest 1 None
                (mkTransferBody (Some 2110000001) (Some 30) (Some 2110000002)
                                (Some "$toy$[1234]")));
              OpWithdraw (mkRequest 1 None
                (mkWithdrawalBody (Some 2110000001) (Some 45) (Some 3000000001)
                                  (Some "$toy$[1234]") (Some "Other Bank")))] in
  total_balance (accounts bank) = 150 /\
  net_flows digest_verify bank ops = 25 - 45 /\
  total_balance (accounts (run digest_verify bank ops)) = 150 + (25 - 45).
Proof.
  intros ops. split; [reflexivity |]. split; [reflexivity |].
  refine (proj1 (ledger_balances digest_verify ops bank _)).
  apply exact_runb_sound. reflexivity.
Defined.

(** ** When an operation commits *)

Lemma findByOwnerId_None (db : list Account) (o : Z) :
  findByOwnerId db o = None -> owner_rows db o = 0.
Proof.
  induction db as [| row rest IH]; cbn; [reflexivity |].
  destruct (owner row =? o); [discriminate |]. intros H. rewrite IH by exact H. lia.
Qed.

(** X8. A deposit commits exactly when its amount is positive and the
    caller owns exactly one row of the table; a caller with no account or
    with several accounts cannot deposit. *)
Theorem deposit_commits_iff (w : World) (req : Request DepositFundsDto) :
  committed (fst (deposit w req)) = true <->
  0 < d_amount (body req) /\ owner_rows (accounts w) (userId req) = 1.
Proof.
  unfold deposit. split.
  - destruct (deposit_read w req) as [res | account] eqn:Hread.
    + cbn [fst snd]. rewrite (deposit_read_inl _ _ _ Hread). discriminate.
    + destruct (deposit_read_inr _ _ _ Hread) as [Hpos _].
      rewrite deposit_write_result.
      destruct (_ =? 1) eqn:Hone; [| discriminate].
      apply Z.eqb_eq in Hone. auto.
  - intros [Hpos Hone]. unfold deposit_read.
    assert ((d_amount (body req) <=? 0) = false) as -> by (apply Z.leb_gt; lia).
    destruct (findByOwnerId (accounts w) (userId req)) as [account |] eqn:Hacc.
    + rewrite deposit_write_result, Hone. reflexivity.
    + apply findByOwnerId_None in Hacc. lia.
Qed.

Lemma deposit_commits_iff_witness :
  committed (fst (deposit bank (mkRequest 3 None (mkDepositFundsDto 10)))) = true.
Proof.
  apply (proj2 (deposit_commits_iff bank (mkRequest 3 None (mkDepositFundsDto 10)))).
  split; reflexivity.
Defined.

(** X9. A transfer commits exactly when the body passes the schema, the
    two account numbers differ, the amount is positive, both accounts
    exist, the caller owns the source, the source holds the amount, the pin
    verifies, and the owner of each of the two accounts owns exactly one
    row of the table. *)
Theorem transfer_commits_iff (argon2_verify : string -> string -> bool)
    (w : World) (req : Request TransferBody) :
  committed (fst (transfer argon2_verify w req)) = true <->
  exists (value : CreateTransferDto) (s r : Account),
    validateTransfer (body req) = inr value /\
    t_source value <> t_destination value /\
    0 < t_amount value /\
    find (accounts w) (t_source value) = Some s /\
    find (accounts w) (t_destination value) = Some r /\
    owner s = userId req /\
    t_amount value <= balance s /\
    argon2_verify (t_transaction_pin value) (transaction_pin s) = true /\
    owner_rows (accounts w) (owner s) = 1 /\
    owner_rows (accounts w) (owner r) = 1.
Proof.
  unfold transfer. split.
  - destruct (transfer_read argon2_verify w req) as [res | [[value s] r]] eqn:Hread.
    + cbn [fst snd]. rewrite (transfer_read_inl _ _ _ _ Hread). discriminate.
    + pose proof (transfer_read_inr _ _ _ _ _ _ Hread) as Hchecks.
      rewrite transfer_write_result.
      destruct (owner_rows (accounts w) (owner s) =? 1) eqn:H1;
        [destruct (owner_rows (accounts w) (owner r) =? 1) eqn:H2 |];
        cbn; try discriminate.
      intros _. apply Z.eqb_eq in H1. apply Z.eqb_eq in H2.
      exists value, s, r. tauto.
  - intros (value & s & r & Hv & Hneq & Hpos & Hs & Hr & Hown & Hfunds & Hpin & H1 & H2).
    assert (Hread : transfer_read argon2_verify w req = inr (value, s, r)).
    { unfold transfer_read. rewrite Hv, Hs, Hr, Hpin.
      apply Z.eqb_neq in Hneq. rewrite Hneq.
      assert ((t_amount value <=? 0) = false) as -> by (apply Z.leb_gt; lia).
      assert ((owner s =? userId req) = true) as -> by (apply Z.eqb_eq; lia).
      assert ((balance s <? t_amount value) = false) as -> by (apply Z.ltb_ge; lia).
      reflexivity. }
    rewrite Hread, transfer_write_result, H1, H2. reflexivity.
Qed.

Lemma transfer_commits_iff_witness :
  committed (fst (transfer toy_verify bank
    (mkRequest 2 None
       (mkTransferBody (Some 2110000002) (Some 50) (Some 2110000003) (Some "4321")))))
  = true.
Proof.
  apply (proj2 (transfer_commits_iff toy_verify bank
    (mkRequest 2 None
       (mkTransferBody (Some 2110000002) (Some 50) (Some 2110000003) (Some "4321"))))).
  exists (mkCreateTransferDto 2110000002 50 2110000003 "4321"), bob, carol.
  repeat split; first [reflexivity | discriminate].
Defined.

(** X10. A withdrawal commits exactly when the body passes the schema, the
    source account exists and holds the amount, the pin verifies, and the
    owner of the source owns exactly one row of the table; neither the
    caller nor the sign of the amount is among the conditions. *)
Theorem withdraw_commits_iff (argon2_verify : string -> string -> bool)
    (w : World) (req : Request WithdrawalBody) :
  committed (fst (withdraw argon2_verify w req)) = true <->
  exists (value : WithdrawalDto) (a : Account),
    validateWithdrawal (body req) = inr value /\
    find (accounts w) (w_source value) = Some a /\
    w_amount value <= balance a /\
    argon2_verify (w_transaction_pin value) (transaction_pin a) = true /\
    owner_rows (accounts w) (owner a) = 1.
Proof.
  unfold withdraw. split.
  - destruct (withdraw_read argon2_verify w req) as [res | [value a]] eqn:Hread.
    + cbn [fst snd]. rewrite (withdraw_read_inl _ _ _ _ Hread). discriminate.
    + pose proof (withdraw_read_inr _ _ _ _ _ Hread) as Hchecks.
      rewrite withdraw_write_result.
      destruct (_ =? 1) eqn:Hone; [| discriminate].
      intros _. apply Z.eqb_eq in Hone.
      exists value, a. tauto.
  - intros (value & a & Hv & Hs & Hfunds & Hpin & Hone).
    assert (Hread : withdraw_read argon2_verify w req = inr (value, a)).
    { unfold withdraw_read. rewrite Hv, Hs, Hpin.
      assert ((balance a <? w_amount value) = false) as -> by (apply Z.ltb_ge; lia).
      reflexivity. }
    rewrite Hread, withdraw_write_result, Hone. reflexivity.
Qed.

Lemma withdraw_commits_iff_witness :
  committed (fst (withdraw toy_verify bank
    (mkRequest 3 None
       (mkWithdrawalBody (Some 2110000001) (Some 100) (Some 3000000001)
                         (Some "1234") (Some "Other Bank")))))
  = true.
Proof.
  apply (proj2 (withdraw_commits_iff toy_verify bank
    (mkRequest 3 None
       (mkWithdrawalBody (Some 2110000001) (Some 100) (Some 3000000001)
                         (Some "1234") (Some "Other Bank"))))).
  exists (mkWithdrawalDto 2110000001 100 3000000001 "1234" "Other Bank"), alice.
  repeat split; first [reflexivity | discriminate].
Defined.

(** ** What a wrong pin reveals *)

(** X14. A withdrawal from an existing account with a pin that does not
    verify changes nothing, and its answer tells whether the amount exceeds
    the balance: the funds failure when it does, the pin failure when it
    does not. The funds are compared before the pin is verified, and for
    any caller. *)
Theorem withdraw_wrong_pin_reveals_funds (argon2_verify : string -> string -> bool)
    (w : World) (req : Request WithdrawalBody) (value : WithdrawalDto) (a : Account) :
  validateWithdrawal (body req) = inr value ->
  find (accounts w) (w_source value) = Some a ->
  argon2_verify (w_transaction_pin value) (transaction_pin a) = false ->
  forall caller : Z,
    withdraw argon2_verify w (as_user caller req)
    = (mkResponse 400
         (getError (ErrString
            (if balance a <? w_amount value
             then "Insufficient funds in the sender account."
             else "Invalid transaction pin"))), w).
Proof.
  intros Hv Hs Hpin caller. unfold withdraw, withdraw_read. cbn [as_user body].
  rewrite Hv, Hs, Hpin.
  destruct (balance a <? w_amount value); reflexivity.
Qed.

Lemma withdraw_wrong_pin_reveals_funds_witness :
  withdraw toy_verify bank
    (as_user 3 (mkRequest 1 None
       (mkWithdrawalBody (Some 2110000002) (Some 51) (Some 3000000001)
                         (Some "0000") (Some "Other Bank"))))
  = (mkResponse 400 (getError (ErrString "Insufficient funds in the sender account.")),
     bank) /\
  withdraw toy_verify bank
    (as_user 3 (mkRequest 1 None
       (mkWithdrawalBody (Some 2110000002) (Some 50) (Some 3000000001)
                         (Some "0000") (Some "Other Bank"))))
  = (mkResponse 400 (getError (ErrString "Invalid transaction pin")), bank).
Proof.
  split.
  - apply (withdraw_wrong_pin_reveals_funds toy_verify bank
             (mkRequest 1 None
                (mkWithdrawalBody (Some 2110000002) (Some 51) (Some 3000000001)
                                  (Some "0000") (Some "Other Bank")))
             (mkWithdrawalDto 2110000002 51 3000000001 "0000" "Other Bank") bob);
      reflexivity.
  - apply (withdraw_wrong_pin_reveals_funds toy_verify bank
             (mkRequest 1 None
                (mkWithdrawalBody (Some 2110000002) (Some 50) (Some 3000000001)
                                  (Some "0000") (Some "Other Bank")))
             (mkWithdrawalDto 2110000002 50 3000000001 "0000" "Other Bank") bob);
      reflexivity.
Defined.

(** ** A transfer that writes from accounts read earlier *)

(** X15. The transaction of a transfer writes the balances computed from
    the two accounts as they were read: run on a table whose two rows have
    changed since, it still commits when each owner has one row, and sets
    the source to the balance read less the amount and the destination to
    the balance read plus the amount, so that the sum of the balances
    moves by the difference between what was read and what the rows
    held. *)
Theorem transfer_write_uses_read_balances (w : World) (req : Request TransferBody)
    (value : CreateTransferDto) (s r current_s current_r : Account) :
  t_source value <> t_destination value ->
  find (accounts w) (t_source value) = Some current_s ->
  find (accounts w) (t_destination value) = Some current_r ->
  owner current_s = owner s -> owner current_r = owner r ->
  owner_rows (accounts w) (owner s) = 1 ->
  owner_rows (accounts w) (owner r) = 1 ->
  let result := transfer_write w req value s r in
  committed (fst result) = true /\
  find (accounts (snd result)) (t_source value)
  = Some (set_balance current_s (balance s - t_amount value)) /\
  find (accounts (snd result)) (t_destination value)
  = Some (set_balance current_r (balance r + t_amount value)) /\
  total_balance (accounts (snd result))
  = total_balance (accounts w)
    + (balance s - balance current_s) + (balance r - balance current_r).
Proof.
  intros Hneq Hs Hr Hos Hor H1 H2 result. subst result.
  rewrite transfer_write_result, H1, H2. cbn.
  destruct (find_Some _ _ _ Hs) as [_ Hins].
  destruct (find_Some _ _ _ Hr) as [_ Hinr].
  assert (Hdiff : owner s <> owner r).
  { rewrite <- Hos, <- Hor. rewrite <- Hos in H1.
    exact (transfer_owners_differ _ _ _ _ _ Hs Hr Hneq H1). }
  split; [reflexivity |].
  assert (Ess : (owner current_s =? owner s) = true) by (apply Z.eqb_eq; exact Hos).
  assert (Esr : (owner current_s =? owner r) = false) by (apply Z.eqb_neq; congruence).
  assert (Ers : (owner current_r =? owner s) = false) by (apply Z.eqb_neq; congruence).
  assert (Err : (owner current_r =? owner r) = true) by (apply Z.eqb_eq; exact Hor).
  rewrite !find_update_rows, Hs, Hr. cbn.
  rewrite Ess, Ers. cbn. rewrite Esr, Err.
  split; [reflexivity |]. split; [reflexivity |].
  rewrite (total_update_rows_one _ (owner r) _ current_r).
  - rewrite (total_update_rows_one _ (owner s) _ current_s H1 Hins Hos). lia.
  - rewrite owner_rows_update_rows. exact H2.
  - apply In_update_rows_other; [exact Hinr | congruence].
  - exact Hor.
Qed.

Lemma transfer_write_uses_read_balances_witness :
  let req := mkRequest 1 None
               (mkTransferBody (Some 2110000001) (Some 100) (Some 2110000003)
                               (Some "1234")) in
  let value := mkCreateTransferDto 2110000001 100 2110000003 "1234" in
  let later := mkWorld [set_balance alice 0; set_balance bob 150; carol] ∅ in
  let result := transfer_write later req value alice carol in
  committed (fst result) = true /\
  find (accounts (snd result)) 2110000001
  = Some (set_balance (set_balance alice 0) (100 - 100)) /\
  find (accounts (snd result)) 2110000003
  = Some (set_balance carol (0 + 100)) /\
  total_balance (accounts (snd result))
  = total_balance (accounts later) + (100 - 0) + (0 - 0).
Proof.
  intros req value later.
  apply (transfer_write_uses_read_balances later req value alice carol
           (set_balance alice 0) carol);
    first [reflexivity | discriminate].
Defined.

(** Two transfers of her whole balance by alice, to bob and to carol,
    whose reads both come before either transaction: both commit and the
    sum of the balances grows from 150 to 250. *)
Example interleaved_transfers_spend_twice :
  let to_bob := mkRequest 1 None
                  (mkTransferBody (Some 2110000001) (Some 100) (Some 2110000002)
                                  (Some "1234")) in
  let to_carol := mkRequest 1 None
                    (mkTransferBody (Some 2110000001) (Some 100) (Some 2110000003)
                                    (Some "1234")) in
  total_balance (accounts bank) = 150 /\
  (fun '(res1, res2, w') =>
     (status res1, status res2, total_balance (accounts w'),
      balance_of w' 2110000001, balance_of w' 2110000002, balance_of w' 2110000003))
    <$> interleaved_transfers toy_verify bank to_bob to_carol
  = Some (200, 200, 250, Some 0, Some 150, Some 100).
Proof.
  vm_compute. split; reflexivity.
Qed.

(** ** The idempotency cache *)

Lemma cacheResponseIfKeyExists_eq {Body} (cache : gmap string (Json * Z))
    (req : Request Body) (key : string) (response : Json) :
  truthy key = true ->
  cacheResponseIfKeyExists cache req (Some key) response
  = <[cacheKey (userId req) key := (response, CACHE_TTL)]> cache.
Proof. intros Ht. unfold cacheResponseIfKeyExists. rewrite Ht. reflexivity. Qed.

(** The cache after an operation. *)
Lemma cache_after_execute (argon2_verify : string -> string -> bool)
    (w : World) (op : Operation) :
  customCache (snd (execute argon2_verify w op))
  = if committed (fst (execute argon2_verify w op))
    then match key_of op with
         | Some key =>
             if truthy key
             then <[cacheKey (caller_of op) key
                    := (json (fst (execute argon2_verify w op)), CACHE_TTL)]>
                    (customCache w)
             else customCache w
         | None => customCache w
         end
    else customCache w.
Proof.
  destruct op as [req | req | req]; cbn [execute key_of caller_of].
  - unfold deposit. destruct (deposit_read w req) as [res | account] eqn:Hread.
    + cbn [fst snd]. rewrite (deposit_read_inl _ _ _ Hread). reflexivity.
    + rewrite deposit_write_result. destruct (_ =? 1); cbn; [| reflexivity].
      unfold cacheResponseIfKeyExists.
      destruct (idempotency_key req) as [key |]; reflexivity.
  - unfold transfer.
    destruct (transfer_read argon2_verify w req) as [res | [[value s] r]] eqn:Hread.
    + cbn [fst snd]. rewrite (transfer_read_inl _ _ _ _ Hread). reflexivity.
    + rewrite transfer_write_result. destruct (_ && _); cbn; [| reflexivity].
      unfold cacheResponseIfKeyExists.
      destruct (idempotency_key req) as [key |]; reflexivity.
  - unfold withdraw.
    destruct (withdraw_read argon2_verify w req) as [res | [value a]] eqn:Hread.
    + cbn [fst snd]. rewrite (withdraw_read_inl _ _ _ _ Hread). reflexivity.
    + rewrite withdraw_write_result. destruct (_ =? 1); cbn; [| reflexivity].
      unfold cacheResponseIfKeyExists.
      destruct (idempotency_key req) as [key |]; reflexivity.
Qed.

(** X16. An operation that commits and carries a non-empty idempotency
    key stores the body it answers with, and the time to live 21600, under
    the key of the caller and the header, and touches no other entry; an
    operation that fails, or carries no key or an empty one, leaves the
    cache as it was. *)
Theorem cache_written_on_success_only (argon2_verify : string -> string -> bool)
    (w : World) (op : Operation) :
  let result := execute argon2_verify w op in
  (forall key : string,
      committed (fst result) = true ->
      key_of op = Some key -> truthy key = true ->
      customCache (snd result) !! cacheKey (caller_of op) key
      = Some (json (fst result), 21600) /\
      forall other : string,
        other <> cacheKey (caller_of op) key ->
        customCache (snd result) !! other = customCache w !! other) /\
  (committed (fst result) = false \/ key_of op = None \/ key_of op = Some "" ->
   customCache (snd result) = customCache w).
Proof.
  intros result. subst result. rewrite cache_after_execute. split.
  - intros key Hc Hk Ht. rewrite Hc, Hk, Ht. split.
    + apply lookup_insert_eq.
    + intros other Hne. apply lookup_insert_ne. congruence.
  - intros [Hc | [Hk | Hk]].
    + rewrite Hc. reflexivity.
    + rewrite Hk. destruct (committed _); reflexivity.
    + rewrite Hk. destruct (committed _); reflexivity.
Qed.

Lemma cache_written_on_success_only_witness :
  let op := OpWithdraw (mkRequest 2 (Some "w-7")
              (mkWithdrawalBody (Some 2110000002) (Some 20) (Some 3000000001)
                                (Some "4321") (Some "Other Bank"))) in
  let result := execute toy_verify bank op in
  customCache (snd result) !! cacheKey 2 "w-7" = Some (json (fst result), 21600).
Proof.
  intros op result.
  apply (proj1 (cache_written_on_success_only toy_verify bank op) "w-7");
    reflexivity.
Defined.

(** *** Cache keys *)

Lemma append_cancel_l (s a b : string) : s +:+ a = s +:+ b -> a = b.
Proof.
  induction s as [| c s IH]; [auto |].
  rewrite !append_String. intros [= H]. auto.
Qed.

Lemma fuel_enough (n : Z) : 0 <= n -> 0 <= n < 2 ^ Z.of_nat (S (Z.to_nat (Z.log2 n))).
Proof.
  intros Hn. split; [exact Hn |].
  destruct (Z.eq_dec n 0) as [-> | Hne]; [reflexivity |].
  apply log2_fuel. lia.
Qed.

(** The printed digits begin with a digit. *)
Lemma digits_rev_head (fuel : nat) :
  forall n : Z,
    0 <= n < 2 ^ Z.of_nat (S fuel) ->
    exists d tail, 0 <= d < 10 /\ rev (digits_rev (S fuel) n) = digit_char d :: tail.
Proof.
  induction fuel as [| f IH]; intros n Hn.
  - cbn [digits_rev]. destruct (n <? 10) eqn:Hlt.
    + apply Z.ltb_lt in Hlt. exists n, []. split; [lia | reflexivity].
    + apply Z.ltb_ge in Hlt. change (2 ^ Z.of_nat 1) with 2 in Hn. lia.
  - remember (S f) as f1 eqn:Hf1. cbn [digits_rev].
    destruct (n <? 10) eqn:Hlt.
    + apply Z.ltb_lt in Hlt. exists n, []. split; [lia | reflexivity].
    + apply Z.ltb_ge in Hlt.
      assert (Hpow : 2 ^ Z.of_nat (S f1) = 2 * 2 ^ Z.of_nat f1).
      { rewrite Nat2Z.inj_succ, Z.pow_succ_r by lia. reflexivity. }
      assert (Hdiv : 0 <= n / 10 < 2 ^ Z.of_nat f1).
      { split; [apply Z.div_pos; lia |].
        apply Z.div_lt_upper_bound; lia. }
      subst f1. destruct (IH (n / 10) Hdiv) as (d & tail & Hd & Heq).
      exists d, (tail ++ [digit_char (n mod 10)])%list. split; [exact Hd |].
      cbn [rev]. rewrite Heq. reflexivity.
Qed.

Lemma parseInt_digit_head (d : Z) (rest : string) :
  0 <= d < 10 ->
  parseInt (String (digit_char d) rest)
  = Some (parse_digits 0 (String (digit_char d) rest)) /\
  starts_with_digit (String (digit_char d) rest) = true.
Proof.
  intros Hd.
  assert (Hcases : d = 0 \/ d = 1 \/ d = 2 \/ d = 3 \/ d = 4 \/
                   d = 5 \/ d = 6 \/ d = 7 \/ d = 8 \/ d = 9) by lia.
  repeat (destruct Hcases as [-> | Hcases]; [split; reflexivity |]).
  subst d; split; reflexivity.
Qed.

(** [parseInt] reads back the user id printed at the head of a key. *)
Lemma parseInt_toString_dash (u : Z) (key : string) :
  parseInt (toString u +:+ String "-" key) = Some u.
Proof.
  assert (Hnat : forall n, 0 <= n ->
             parseInt (string_of_chars (digits n) +:+ String "-" key) = Some n /\
             starts_with_digit (string_of_chars (digits n) +:+ String "-" key) = true /\
             parse_digits 0 (string_of_chars (digits n) +:+ String "-" key) = n).
  { intros n Hn.
    pose proof (fuel_enough n Hn) as Hfuel.
    assert (Hparse : parse_digits 0 (string_of_chars (digits n) +:+ String "-" key) = n).
    { unfold digits. rewrite parse_digits_rev by exact Hfuel.
      cbn [parse_digits]. change (digit_of "-") with (@None Z). cbv iota. lia. }
    destruct (digits_rev_head _ n Hfuel) as (d & tail & Hd & Heq).
    assert (Hshape : string_of_chars (digits n) +:+ String "-" key
                     = String (digit_char d) (string_of_chars tail +:+ String "-" key)).
    { unfold digits. rewrite Heq. reflexivity. }
    destruct (parseInt_digit_head d (string_of_chars tail +:+ String "-" key) Hd)
      as [Hp Hsd].
    rewrite <- Hshape in Hp, Hsd. rewrite Hp, Hparse. auto. }
  unfold toString. destruct (u <? 0) eqn:Hneg.
  - apply Z.ltb_lt in Hneg.
    destruct (Hnat (- u) ltac:(lia)) as (_ & Hsd & Hparse).
    rewrite append_String. cbn [parseInt]. rewrite Hsd, Hparse. f_equal; lia.
  - apply Z.ltb_ge in Hneg. apply (Hnat u Hneg).
Qed.

Lemma cacheKey_injective (u1 u2 : Z) (k1 k2 : string) :
  cacheKey u1 k1 = cacheKey u2 k2 -> u1 = u2 /\ k1 = k2.
Proof.
  unfold cacheKey. intros H.
  apply append_cancel_l in H.
  change ("-" +:+ k1) with (String "-" k1) in H.
  change ("-" +:+ k2) with (String "-" k2) in H.
  assert (Hu : u1 = u2).
  { pose proof (parseInt_toString_dash u1 k1) as H1.
    rewrite H, parseInt_toString_dash in H1. congruence. }
  subst u2. split; [reflexivity |].
  apply append_cancel_l in H. congruence.
Qed.

(** X17. Cache entries are scoped by caller and by key: two different
    pairs of a user id and an idempotency key never share a cache key, so
    an operation of one caller under one key never writes the entry of
    another caller or of another key. *)
Theorem cache_entries_scoped (argon2_verify : string -> string -> bool)
    (w : World) (op : Operation) (u : Z) (key : string) :
  (forall (u' : Z) (key' : string),
      cacheKey u key = cacheKey u' key' -> u = u' /\ key = key') /\
  (caller_of op <> u \/ key_of op <> Some key ->
   customCache (snd (execute argon2_verify w op)) !! cacheKey u key
   = customCache w !! cacheKey u key).
Proof.
  split; [intros u' key'; apply cacheKey_injective |].
  intros Hother. rewrite cache_after_execute.
  destruct (committed _); [| reflexivity].
  destruct (key_of op) as [key' |]; [| reflexivity].
  destruct (truthy key'); [| reflexivity].
  apply lookup_insert_ne. intros Heq.
  apply cacheKey_injective in Heq as [Hu Hk].
  destruct Hother as [Hc | Hk']; congruence.
Qed.

Lemma cache_entries_scoped_witness :
  let op := OpDeposit (mkRequest 3 (Some "retry-1") (mkDepositFundsDto 10)) in
  customCache (snd (execute toy_verify bank op)) !! cacheKey 1 "retry-1"
  = customCache bank !! cacheKey 1 "retry-1".
Proof.
  intros op.
  apply (proj2 (cache_entries_scoped toy_verify bank op 1 "retry-1")).
  left. discriminate.
Defined.


(** ** The profile of the caller *)

Lemma UserRepository_getUser_Some (users : list User) (userId : Z) (u : UserDetails) :
  UserRepository.getUser users userId = Some u ->
  ud_id u = userId /\
  exists row, In row users /\
    u = mkUserDetails (user_id row) (first_name row) (last_name row)
          (email row) (phone_number row).
Proof.
  induction users as [| r rest IH]; cbn; [discriminate |].
  destruct (user_id r =? userId) eqn:E.
  - intros [= <-]. apply Z.eqb_eq in E. split; [exact E |].
    exists r. auto.
  - intros H. destruct (IH H) as [Hid (row & Hin & Heq)].
    split; [exact Hid |]. exists row. auto.
Qed.

(** X18. [getUser] always answers with status 200, also when the caller
    has no user row or no account (the property is then left out). The
    [user] property carries the id, names, email and phone number of the
    row of the caller and nothing else; the [account] property carries the
    row found by owner, its stored [transaction_pin] and its balance
    included. *)
Theorem getUser_response (users : list User) (db : list Account) (userId : Z) :
  let res := UserController.getUser users db userId in
  status res = 200 /\
  match UserRepository.getUser users userId with
  | Some u =>
      ud_id u = userId /\
      json_get "user" (json res)
      = Some (JObj [("id", JNum userId); ("first_name", JStr (ud_first_name u));
                    ("last_name", JStr (ud_last_name u)); ("email", JStr (ud_email u));
                    ("phone_number", JStr (ud_phone_number u))])
  | None => json_get "user" (json res) = None
  end /\
  match findByOwnerId db userId with
  | Some a =>
      owner a = userId /\
      (json_get "account" (json res) ≫= json_get "transaction_pin")
      = Some (JStr (transaction_pin a)) /\
      (json_get "account" (json res) ≫= json_get "balance")
      = Some (JNum (balance a))
  | None => json_get "account" (json res) = None
  end.
Proof.
  intros res. subst res. unfold UserController.getUser.
  split; [reflexivity |].
  destruct (UserRepository.getUser users userId) as [u |] eqn:Hu;
    destruct (findByOwnerId db userId) as [a |] eqn:Ha; cbn;
    try (apply UserRepository_getUser_Some in Hu as [Hid _]);
    try (apply findByOwnerId_Some in Ha as [Ho _]);
    unfold json_of_user; try rewrite Hid;
    repeat split; auto.
Qed.
